(** * Technical-analysis report: a shallow embedding of
      [technical_analysis_project.py]

    The development follows the source file top to bottom:

    - [PyFloat]: the values a pandas/NumPy float column can hold.  Finite
      values are exact rationals (rounding is not modelled); the three
      special values [inf], [-inf] and [nan] and the IEEE rules that create
      them (division by zero, [inf - inf], ...) are kept, because the
      oscillator formula relies on them.  Signed zeros are not
      distinguished.
    - [Series]: the pandas operations the source calls on a column
      ([diff], [where], [rolling(...).mean()], element-wise arithmetic).
    - [Indicators]: lines 97-110 of the source (moving averages and RSI).
    - [Candidates]: [fetch_strong_buy_stocks] (lines 25-51).
    - [Report]: [generate_technical_analysis_pdf] (lines 54-275), with the
      external calls (Yahoo Finance download, PDF back end) as an oracle
      and Python exceptions as an error monad. *)

From Stdlib Require Import String Ascii Bool Arith Lia ZArith QArith Lqa List.
Import ListNotations.

(* ===================================================================== *)
(** * Floats                                                              *)
(* ===================================================================== *)

Module PyFloat.

Local Open Scope Q_scope.

Inductive pyfloat : Type :=
| Fin (q : Q)
| PInf
| NInf
| NaN.

Definition fneg (x : pyfloat) : pyfloat :=
  match x with
  | Fin q => Fin (- q)
  | PInf => NInf
  | NInf => PInf
  | NaN => NaN
  end.

Definition fadd (x y : pyfloat) : pyfloat :=
  match x, y with
  | NaN, _ | _, NaN => NaN
  | Fin a, Fin b => Fin (a + b)
  | PInf, NInf | NInf, PInf => NaN
  | PInf, _ | _, PInf => PInf
  | NInf, _ | _, NInf => NInf
  end.

Definition fsub (x y : pyfloat) : pyfloat := fadd x (fneg y).

(** Multiplication: [inf * 0] is [nan]; otherwise the sign rule. *)
Definition fmul (x y : pyfloat) : pyfloat :=
  match x, y with
  | NaN, _ | _, NaN => NaN
  | Fin a, Fin b => Fin (a * b)
  | Fin a, PInf | PInf, Fin a =>
      match a ?= 0 with Gt => PInf | Lt => NInf | Eq => NaN end
  | Fin a, NInf | NInf, Fin a =>
      match a ?= 0 with Gt => NInf | Lt => PInf | Eq => NaN end
  | PInf, PInf | NInf, NInf => PInf
  | PInf, NInf | NInf, PInf => NInf
  end.

(** Division as NumPy performs it on float64 (warnings are silenced by
    the source): a non-zero finite value over zero is an infinity, zero
    over zero is [nan], a finite value over an infinity is zero. *)
Definition fdiv (x y : pyfloat) : pyfloat :=
  match x, y with
  | NaN, _ | _, NaN => NaN
  | Fin a, Fin b =>
      if Qeq_bool b 0
      then match a ?= 0 with Gt => PInf | Lt => NInf | Eq => NaN end
      else Fin (a / b)
  | Fin _, PInf | Fin _, NInf => Fin 0
  | PInf, Fin b => if Qle_bool 0 b then PInf else NInf
  | NInf, Fin b => if Qle_bool 0 b then NInf else PInf
  | PInf, PInf | PInf, NInf | NInf, PInf | NInf, NInf => NaN
  end.

(** Comparisons with a [nan] operand are false. *)
Definition fgt (x y : pyfloat) : bool :=
  match x, y with
  | NaN, _ | _, NaN => false
  | Fin a, Fin b => match a ?= b with Gt => true | _ => false end
  | PInf, Fin _ | PInf, NInf | Fin _, NInf => true
  | PInf, PInf | NInf, _ | Fin _, PInf => false
  end.

Definition flt (x y : pyfloat) : bool := fgt y x.

Definition isnan (x : pyfloat) : bool :=
  match x with NaN => true | _ => false end.

Definition of_nat (n : nat) : pyfloat := Fin (inject_Z (Z.of_nat n)).

(** Equality of floats up to the representation of the rational. *)
Definition feq (x y : pyfloat) : Prop :=
  match x, y with
  | Fin a, Fin b => a == b
  | PInf, PInf | NInf, NInf | NaN, NaN => True
  | _, _ => False
  end.

End PyFloat.
Export PyFloat.

(* ===================================================================== *)
(** * Series                                                              *)
(* ===================================================================== *)

Module Series.

Definition series := list pyfloat.

(** [Series.diff()]: the first entry has no predecessor and is [nan]. *)
Fixpoint diff_from (prev : pyfloat) (xs : series) : series :=
  match xs with
  | [] => []
  | x :: rest => fsub x prev :: diff_from x rest
  end.

Definition diff (xs : series) : series :=
  match xs with
  | [] => []
  | x :: rest => NaN :: diff_from x rest
  end.

(** [s.where(cond, other)]: keep the entry where [cond] holds, put
    [other] elsewhere (also where the comparison involved a [nan]). *)
Definition where_ (cond : pyfloat -> bool) (other : pyfloat) (s : series)
  : series :=
  map (fun x => if cond x then x else other) s.

Definition neg (s : series) : series := map fneg s.

(** Element-wise binary operation on two aligned columns. *)
Fixpoint map2 (f : pyfloat -> pyfloat -> pyfloat) (xs ys : series) : series :=
  match xs, ys with
  | x :: xs', y :: ys' => f x y :: map2 f xs' ys'
  | _, _ => []
  end.

Definition fsum (xs : series) : pyfloat := fold_right fadd (Fin 0%Q) xs.

(** Mean of one rolling window: the observations are the non-[nan]
    entries; with fewer than [min_periods] of them the result is [nan]. *)
Definition window_mean (min_periods : nat) (win : series) : pyfloat :=
  let obs := filter (fun x => negb (isnan x)) win in
  if min_periods <=? length obs
  then fdiv (fsum obs) (of_nat (length obs))
  else NaN.

(** [s.rolling(window, min_periods).mean()].  [hist] is the current
    window, most recent entry first, as the series is scanned. *)
Fixpoint rolling_aux (window min_periods : nat) (hist xs : series) : series :=
  match xs with
  | [] => []
  | x :: rest =>
      let hist' := firstn window (x :: hist) in
      window_mean min_periods hist' :: rolling_aux window min_periods hist' rest
  end.

Definition rolling_mean (window min_periods : nat) (xs : series) : series :=
  rolling_aux window min_periods [] xs.

(** [s.iloc[-k]] for [k >= 1]; [None] is Python's [IndexError]. *)
Definition iloc_neg {A : Type} (k : nat) (xs : list A) : option A :=
  if (k <=? length xs) && (1 <=? k) then nth_error xs (length xs - k) else None.

End Series.
Export Series.

(* ===================================================================== *)
(** * Indicators (source lines 97-110)                                    *)
(* ===================================================================== *)

Module Indicators.

Definition MA_200 (close : series) : series := rolling_mean 200 1 close.
Definition MA_50 (close : series) : series := rolling_mean 50 1 close.

Definition delta (close : series) : series := diff close.

Definition gain (close : series) : series :=
  rolling_mean 14 14
    (where_ (fun d => fgt d (Fin 0%Q)) (Fin 0%Q) (delta close)).

Definition loss (close : series) : series :=
  rolling_mean 14 14
    (neg (where_ (fun d => flt d (Fin 0%Q)) (Fin 0%Q) (delta close))).

Definition rs (close : series) : series := map2 fdiv (gain close) (loss close).

Definition rsi_of_rs (r : pyfloat) : pyfloat :=
  fsub (Fin 100%Q) (fdiv (Fin 100%Q) (fadd (Fin 1%Q) r)).

Definition RSI (close : series) : series := map rsi_of_rs (rs close).

End Indicators.
Export Indicators.

(* ===================================================================== *)
(** * Candidates: [fetch_strong_buy_stocks] (source lines 25-51)          *)
(* ===================================================================== *)

Module Candidates.

(** A value read from the database or held in a DataFrame cell: SQL
    [NULL] / Python [None], a float (a [NULL] of a float column is the
    float [nan]), an integer, or text. *)
Inductive cell : Type :=
| CNone
| CFloat (f : pyfloat)
| CInt (z : Z)
| CStr (s : string).

(** One row of the [Stocks] table: the nine selected columns and the
    three columns of the [WHERE] clause. *)
Record stock : Type := {
  symbol : string;
  Target_LP : cell;
  Target_Mean_P : cell;
  Sector : cell;
  Anlsts : cell;
  Rec_Mean : cell;
  MTD_Change : cell;
  YTD_Change : cell;
  Rec_Key : option string;
  Country : option string;
  Market_cap : option Q
}.

(** One row of the DataFrame returned by the query. *)
Record df_row : Type := {
  df_symbol : string;
  df_Target_LP : cell;
  df_Target_Mean_P : cell;
  df_Sector : cell;
  df_Anlsts : cell;
  df_Rec_Mean : cell;
  df_Market_Cap : cell;
  df_MTD_Change : cell;
  df_YTD_Change : cell
}.

(** [s.replace("'", "''")] *)
Fixpoint replace_quote (s : string) : string :=
  match s with
  | EmptyString => EmptyString
  | String c rest =>
      if Ascii.eqb c "'"%char
      then String "'"%char (String "'"%char (replace_quote rest))
      else String c (replace_quote rest)
  end.

(** The [WHERE] clause of the query text: two string literals and a
    numeric bound. *)
Record where_clause : Type := {
  where_Rec_Key : string;
  where_Country : string;
  where_Market_cap_gt : Q
}.

(** SQL comparisons: a [NULL] operand never satisfies the predicate.
    Text is compared exactly, as under a binary collation; the
    case-insensitive collations a MySQL server may use are not
    modelled. *)
Definition sql_eq (c : option string) (lit : string) : bool :=
  match c with
  | Some s => String.eqb s lit
  | None => false
  end.

Definition sql_gt (c : option Q) (bound : Q) : bool :=
  match c with
  | Some q => match (q ?= bound)%Q with Gt => true | _ => false end
  | None => false
  end.

Definition satisfies (w : where_clause) (r : stock) : bool :=
  sql_eq (Rec_Key r) (where_Rec_Key w)
  && sql_eq (Country r) (where_Country w)
  && sql_gt (Market_cap r) (where_Market_cap_gt w).

Definition select_columns (r : stock) : df_row :=
  {| df_symbol := symbol r;
     df_Target_LP := Target_LP r;
     df_Target_Mean_P := Target_Mean_P r;
     df_Sector := Sector r;
     df_Anlsts := Anlsts r;
     df_Rec_Mean := Rec_Mean r;
     df_Market_Cap :=
       match Market_cap r with
       | Some q => CFloat (Fin q)
       | None => CFloat NaN
       end;
     df_MTD_Change := MTD_Change r;
     df_YTD_Change := YTD_Change r |}.

(** [pd.read_sql(query, engine)]: [engine] lists the rows of the
    [Stocks] table in the order in which the server delivers them for
    this query.  The query has no [ORDER BY], so that order is the
    server's choice and not a property of the table. *)
Definition read_sql (w : where_clause) (engine : list stock) : list df_row :=
  map select_columns (filter (satisfies w) engine).

(** The query text built by the f-string.  [rec_key_safe] is computed
    (line 30) but the text carries the literal ['strong_buy'] (line 44);
    only [min_market_cap] is interpolated (line 46). *)
Definition query_filtered (min_market_cap : Q) (rec_key : string)
  : where_clause :=
  let rec_key_safe := replace_quote rec_key in
  {| where_Rec_Key := "strong_buy";
     where_Country := "United States";
     where_Market_cap_gt := min_market_cap |}.

Definition fetch_strong_buy_stocks (engine : list stock)
           (min_market_cap : Q) (rec_key : string) : list df_row :=
  let df := read_sql (query_filtered min_market_cap rec_key) engine in
  df.

End Candidates.
Export Candidates.

(* ===================================================================== *)
(** * Report: [generate_technical_analysis_pdf] (source lines 54-275)     *)
(* ===================================================================== *)

Module Report.

Local Open Scope string_scope.

(** ** Exceptions *)

(** The exception classes the function can meet.  All but
    [KeyboardInterrupt] derive from [Exception]. *)
Inductive exn_class : Type :=
| PermissionError
| IndexError
| TypeError
| ValueError
| OverflowError
| OtherException
| KeyboardInterrupt.

Record exn : Type := { exn_kind : exn_class; exn_str : string }.

Definition is_Exception (e : exn) : bool :=
  match exn_kind e with
  | KeyboardInterrupt => false
  | _ => true
  end.

Inductive result (A : Type) : Type :=
| Ok (a : A)
| Raise (e : exn).
Arguments Ok {A} a.
Arguments Raise {A} e.

Definition bind {A B : Type} (m : result A) (k : A -> result B) : result B :=
  match m with
  | Ok a => k a
  | Raise e => Raise e
  end.

Notation "x <- m ;; k" := (bind m (fun x => k))
  (at level 61, m at next level, right associativity).

Definition raise_opt (o : option exn) : result unit :=
  match o with
  | Some e => Raise e
  | None => Ok tt
  end.

(** ** Data *)

(** One daily bar of the downloaded price history. *)
Record bar : Type := {
  Date : Z;
  Open : Q;
  High : Q;
  Low : Q;
  Close : Q;
  Volume : Z
}.

(** The text box of lines 243-248. *)
Record stats : Type := {
  current_price : pyfloat;
  price_change_pct : pyfloat;
  ma_50 : pyfloat;
  ma_200 : pyfloat;
  rsi_value : pyfloat
}.

(** The data content of one figure: what the plotting calls of lines
    119-257 receive.  Layout, colours and number formatting are left to
    the plotting library. *)
Record figure : Type := {
  fig_ticker : string;
  fig_sector : cell;
  fig_rec_key : string;
  fig_anlsts : cell;
  fig_rec_mean : cell;
  fig_market_cap : cell;
  fig_mtd_change : pyfloat;
  fig_ytd_change : pyfloat;
  fig_target_lp : pyfloat;
  fig_target_mean_p : pyfloat;
  fig_ohlc : list bar;
  fig_200_MA : series;
  fig_50_MA : series;
  fig_RSI : series;
  fig_stats : stats
}.

(** ** The environment of a run

    The calls that leave the program, as functions of their arguments:
    - [float(s)] on text ([None] is a [ValueError]);
    - [yf.download(ticker, ...)], which returns bars or raises;
    - [PdfPages(output_path)], which may raise when it opens the file;
    - [pdf.savefig(fig)] and the drawing calls before it, which may
      raise. *)
Record world : Type := {
  float_of_str : string -> option pyfloat;
  yf_download : string -> result (list bar);
  PdfPages : string -> option exn;
  pdf_savefig : figure -> option exn
}.

(** ** Reading one row (lines 71-86) *)

(** [df[df["symbol"] == ticker].iloc[0]] *)
Definition first_row (df : list df_row) (ticker : string) : result df_row :=
  match filter (fun r => String.eqb (df_symbol r) ticker) df with
  | r :: _ => Ok r
  | [] => Raise {| exn_kind := IndexError;
                   exn_str := "single positional indexer is out-of-bounds" |}
  end.

Definition notna (c : cell) : bool :=
  match c with
  | CNone => false
  | CFloat f => negb (isnan f)
  | CInt _ | CStr _ => true
  end.

(** The magnitude from which an integer no longer converts to a float:
    from [2^1024 - 2^970] on, rounding to 53 bits leaves the range of a
    double and Python raises [OverflowError]. *)
Definition float_overflow_bound : Z := (2 ^ 1024 - 2 ^ 970)%Z.

Definition int_overflows (z : Z) : bool :=
  (float_overflow_bound <=? Z.abs z)%Z.

Arguments int_overflows : simpl never.

Definition int_too_large : exn :=
  {| exn_kind := OverflowError;
     exn_str := "int too large to convert to float" |}.

(** A cell that holds an integer too large for a float. *)
Definition cell_overflows (c : cell) : bool :=
  match c with
  | CInt z => int_overflows z
  | CNone | CFloat _ | CStr _ => false
  end.

(** Python's [float(x)]. *)
Definition float_ (w : world) (c : cell) : result pyfloat :=
  match c with
  | CNone => Raise {| exn_kind := TypeError;
                      exn_str := "float() argument must be a string or a real number, not 'NoneType'" |}
  | CFloat f => Ok f
  | CInt z => if int_overflows z then Raise int_too_large
              else Ok (Fin (inject_Z z))
  | CStr s =>
      match float_of_str w s with
      | Some f => Ok f
      | None => Raise {| exn_kind := ValueError;
                         exn_str := "could not convert string to float" |}
      end
  end.

(** Lines 79-82 (and 83-86):
    [try: v = float(x) if pd.notna(x) else 0.0]
    [except (ValueError, TypeError): v = 0.0]
    An exception of another class, such as the [OverflowError] of an
    over-large integer, leaves the inner [try]. *)
Definition change_to_float (w : world) (c : cell) : result pyfloat :=
  match (if notna c then float_ w c else Ok (Fin 0%Q)) with
  | Ok f => Ok f
  | Raise e =>
      match exn_kind e with
      | ValueError | TypeError => Ok (Fin 0%Q)
      | _ => Raise e
      end
  end.

(** The format specification [:.1f] applied to a cell; the figure keeps
    the number that is formatted.  An integer is converted to a float
    first, with the same [OverflowError]. *)
Definition format_1f (c : cell) : result pyfloat :=
  match c with
  | CNone => Raise {| exn_kind := TypeError;
                      exn_str := "unsupported format string passed to NoneType.__format__" |}
  | CFloat f => Ok f
  | CInt z => if int_overflows z then Raise int_too_large
              else Ok (Fin (inject_Z z))
  | CStr _ => Raise {| exn_kind := ValueError;
                       exn_str := "Unknown format code 'f' for object of type 'str'" |}
  end.

(** [s.iloc[-k]] raising [IndexError]. *)
Definition iloc (s : series) (k : nat) : result pyfloat :=
  match iloc_neg k s with
  | Some x => Ok x
  | None => Raise {| exn_kind := IndexError;
                     exn_str := "single positional indexer is out-of-bounds" |}
  end.

(** The value metrics of lines 72-86.  Target prices, sector, analyst
    count, recommendation mean and market cap are the cells as read;
    the two percentage changes went through [change_to_float]. *)
Record metrics : Type := {
  target_lp : cell;
  target_mean_p : cell;
  sector : cell;
  anlsts : cell;
  rec_mean : cell;
  market_cap : cell;
  mtd_change : pyfloat;
  ytd_change : pyfloat
}.

Definition value_metrics (w : world) (stock_row : df_row) : result metrics :=
  mtd <- change_to_float w (df_MTD_Change stock_row) ;;
  ytd <- change_to_float w (df_YTD_Change stock_row) ;;
  Ok {| target_lp := df_Target_LP stock_row;
        target_mean_p := df_Target_Mean_P stock_row;
        sector := df_Sector stock_row;
        anlsts := df_Anlsts stock_row;
        rec_mean := df_Rec_Mean stock_row;
        market_cap := df_Market_Cap stock_row;
        mtd_change := mtd;
        ytd_change := ytd |}.

(** ** The body of the [try] block (lines 70-265) *)

Inductive outcome : Type :=
| Skipped                (* line 95: [continue] after the skip notice *)
| Rendered (fig : figure). (* line 262: the figure was saved *)

(** Lines 97-262 for a non-empty download: indicators, the two target
    lines with their [:.1f] labels, the text box, [pdf.savefig]. *)
Definition render (w : world) (m : metrics) (rec_key ticker : string)
           (stock_data : list bar) : result figure :=
  let close := map (fun b => Fin (Close b)) stock_data in
  let ma200 := MA_200 close in
  let ma50 := MA_50 close in
  let rsi := RSI close in
  lp <- format_1f (target_lp m) ;;
  mp <- format_1f (target_mean_p m) ;;
  last <- iloc close 1 ;;
  prev <- iloc close 2 ;;
  let price_change := fsub last prev in
  let price_change_pct := fmul (fdiv price_change prev) (Fin 100%Q) in
  ma_50 <- iloc ma50 1 ;;
  ma_200 <- iloc ma200 1 ;;
  rsi_value <- iloc rsi 1 ;;
  let fig :=
    {| fig_ticker := ticker;
       fig_sector := sector m;
       fig_rec_key := rec_key;
       fig_anlsts := anlsts m;
       fig_rec_mean := rec_mean m;
       fig_market_cap := market_cap m;
       fig_mtd_change := mtd_change m;
       fig_ytd_change := ytd_change m;
       fig_target_lp := lp;
       fig_target_mean_p := mp;
       fig_ohlc := stock_data;
       fig_200_MA := ma200;
       fig_50_MA := ma50;
       fig_RSI := rsi;
       fig_stats :=
         {| current_price := last;
            price_change_pct := price_change_pct;
            ma_50 := ma_50;
            ma_200 := ma_200;
            rsi_value := rsi_value |} |} in
  _ <- raise_opt (pdf_savefig w fig) ;;
  Ok fig.

Definition try_body (w : world) (df : list df_row) (rec_key ticker : string)
  : result outcome :=
  stock_row <- first_row df ticker ;;
  m <- value_metrics w stock_row ;;
  stock_data <- yf_download w ticker ;;
  match stock_data with
  | [] => Ok Skipped
  | _ :: _ =>
      fig <- render w m rec_key ticker stock_data ;;
      Ok (Rendered fig)
  end.

(** ** The loop (lines 67-273) *)

(** What a run has produced so far: the pages saved into the PDF and
    the lines printed. *)
Record run_state : Type := {
  pages : list figure;
  printed : list string
}.

Definition print (line : string) (st : run_state) : run_state :=
  {| pages := pages st; printed := printed st ++ [line] |}.

Definition add_page (fig : figure) (st : run_state) : run_state :=
  {| pages := pages st ++ [fig]; printed := printed st |}.

Definition msg_skipping (ticker : string) : string :=
  "Skipping " ++ ticker ++ ": no price data from Yahoo Finance.".

Definition msg_added (ticker output_path : string) : string :=
  "Added " ++ ticker ++ " page to " ++ output_path.

Definition msg_permission (ticker output_path : string) : string :=
  "Error processing " ++ ticker
    ++ ": Permission denied. Please close the PDF file '" ++ output_path
    ++ "' if it's open in another program.".

Definition msg_full_error (e : exn) : string := "Full error: " ++ exn_str e.

Definition msg_error (ticker : string) (e : exn) : string :=
  "Error processing " ++ ticker ++ ": " ++ exn_str e.

(** One iteration: the [try] body and its two handlers.  Both handlers
    print and [continue]; an exception outside the [Exception] hierarchy
    is not handled. *)
Definition process_ticker (w : world) (df : list df_row)
           (output_path rec_key : string) (st : run_state) (ticker : string)
  : result run_state :=
  match try_body w df rec_key ticker with
  | Ok Skipped => Ok (print (msg_skipping ticker) st)
  | Ok (Rendered fig) =>
      Ok (print (msg_added ticker output_path) (add_page fig st))
  | Raise e =>
      match exn_kind e with
      | PermissionError =>
          Ok (print (msg_full_error e)
                (print (msg_permission ticker output_path) st))
      | KeyboardInterrupt => Raise e
      | _ => Ok (print (msg_error ticker e) st)
      end
  end.

Fixpoint for_ticker (w : world) (df : list df_row)
         (output_path rec_key : string) (list_of_stocks : list string)
         (st : run_state) : result run_state :=
  match list_of_stocks with
  | [] => Ok st
  | ticker :: rest =>
      st' <- process_ticker w df output_path rec_key st ticker ;;
      for_ticker w df output_path rec_key rest st'
  end.

Definition start : run_state := {| pages := []; printed := [] |}.

Definition generate_technical_analysis_pdf (w : world)
           (df : option (list df_row)) (output_path rec_key : string)
  : result run_state :=
  match df with
  | None | Some [] =>
      Ok (print "No data returned for Rec_Key = 'strong_buy'. Nothing to plot."
            start)
  | Some rows =>
      let list_of_stocks := map df_symbol rows in
      _ <- raise_opt (PdfPages w output_path) ;;
      st <- for_ticker w rows output_path rec_key list_of_stocks start ;;
      Ok (print ("PDF report created: " ++ output_path) st)
  end.

End Report.
Export Report.

(* ===================================================================== *)
(** * Entry point: the key prompt of [main] (source lines 280-283)        *)
(* ===================================================================== *)

Module Main.

Local Open Scope string_scope.







End Main.
Export Main.

(* ===================================================================== *)
(** * Vocabulary of the statements                                        *)
(* ===================================================================== *)

Section Vocabulary.

Local Open Scope Q_scope.

(** The window ending at index [i]: the last [w] entries of the first
    [i + 1], most recent first. *)
Definition window {A : Type} (w : nat) (xs : list A) (i : nat) : list A :=
  firstn w (rev (firstn (S i) xs)).

Definition Qsum (qs : list Q) : Q := fold_right Qplus 0 qs.

(** The specification's wording: [close[lo] + ... + close[lo + n - 1]],
    and the arithmetic mean of the close prices over indices
    [[lo, hi]]. *)
Fixpoint sum_from (close : list Q) (lo n : nat) : Q :=
  match n with
  | O => 0
  | S n' => nth lo close 0 + sum_from close (S lo) n'
  end.

Definition mean_over (close : list Q) (lo hi : nat) : Q :=
  sum_from close lo (S hi - lo) / inject_Z (Z.of_nat (S hi - lo)).

(** The two columns that are averaged, for finite closes: the upward
    and the downward part of each day's move.  The entry at index 0,
    where [diff] has no value, is 0 in both. *)
Fixpoint qdiff_from (prev : Q) (cs : list Q) : list Q :=
  match cs with
  | [] => []
  | c :: rest => (c + - prev) :: qdiff_from c rest
  end.

Definition up_move (d : Q) : Q :=
  if match d ?= 0 with Gt => true | _ => false end then d else 0.

Definition down_move (d : Q) : Q :=
  - (if match 0 ?= d with Gt => true | _ => false end then d else 0).

Definition ups (cs : list Q) : list Q :=
  match cs with
  | [] => []
  | c :: rest => 0 :: map up_move (qdiff_from c rest)
  end.

Definition downs (cs : list Q) : list Q :=
  match cs with
  | [] => []
  | c :: rest => - 0 :: map down_move (qdiff_from c rest)
  end.

End Vocabulary.


(** The page a ticker contributes: its figure when the [try] body ran to
    the end, nothing otherwise. *)
Definition page_of (w : world) (df : list df_row) (rec_key ticker : string)
  : list figure :=
  match try_body w df rec_key ticker with
  | Ok (Rendered fig) => [fig]
  | _ => []
  end.

(** ** Statements of the specification that fail as they are worded *)

(** C3 as stated: wherever the 14-wide delta window is full and the
    average loss there is exactly 0, the oscillator is 100. *)
Definition saturates_when_no_loss (cs : list Q) (i : nat) : Prop :=
  (14 <= i < length cs)%nat ->
  forall l, nth i (loss (map Fin cs)) NaN = Fin l -> (l == 0)%Q ->
  feq (nth i (RSI (map Fin cs)) NaN) (Fin 100).

(** C4 as stated: the oscillator is undefined at each of the first 14
    indices, 0 through 13. *)
Definition undefined_through_13 (cs : list Q) : Prop :=
  forall i, (i <= 13)%nat -> nth i (RSI (map Fin cs)) NaN = NaN.

(** C5 as stated, for the target low price: a missing value is replaced
    by 0.0 before it is used. *)
Definition target_is_normalised (w : world) (row : df_row) : Prop :=
  forall m, value_metrics w row = Ok m ->
            notna (df_Target_LP row) = false -> target_lp m = CFloat (Fin 0).


(* ===================================================================== *)
(** * Sample data                                                         *)
(* ===================================================================== *)

Section Samples.

Local Open Scope string_scope.

(** Closes that rise by one each day from 100. *)
Definition rising_closes (n : nat) : list Q :=
  map (fun k => inject_Z (100 + Z.of_nat k)) (seq 0 n).

(** Closes that stay at 100. *)
Definition flat_closes (n : nat) : list Q := repeat (inject_Z 100) n.

Definition plain_stock (sym rec_key : string) (cap : Q) : stock :=
  {| symbol := sym;
     Target_LP := CFloat (Fin 150);
     Target_Mean_P := CFloat (Fin 160);
     Sector := CStr "Tech";
     Anlsts := CInt 20;
     Rec_Mean := CFloat (Fin (3 # 2));
     MTD_Change := CFloat (Fin (5 # 2));
     YTD_Change := CFloat (Fin 10);
     Rec_Key := Some rec_key;
     Country := Some "United States";
     Market_cap := Some cap |}.

(** A table with one [buy] and one [strong_buy] stock. *)
Definition two_stocks : list stock :=
  [plain_stock "AAA" "buy" 50; plain_stock "BBB" "strong_buy" 50].

Definition plain_row (sym : string) : df_row :=
  select_columns (plain_stock sym "strong_buy" 50).

Definition two_rows : list df_row := [plain_row "AAA"; plain_row "BBB"].

(** A row whose target low price is missing ([NULL] read into a float
    column) and whose month-to-date change is missing too. *)
Definition row_without_target : df_row :=
  {| df_symbol := "AAA";
     df_Target_LP := CFloat NaN;
     df_Target_Mean_P := CFloat (Fin 160);
     df_Sector := CStr "Tech";
     df_Anlsts := CInt 20;
     df_Rec_Mean := CFloat (Fin (3 # 2));
     df_Market_Cap := CFloat (Fin 50);
     df_MTD_Change := CNone;
     df_YTD_Change := CStr "n/a" |}.

Definition bar_at (day : Z) (c : Q) : bar :=
  {| Date := day; Open := c; High := c; Low := c; Close := c; Volume := 1000 |}.

Definition two_bars : list bar := [bar_at 1 100; bar_at 2 101].

Definition permission_denied : exn :=
  {| exn_kind := PermissionError;
     exn_str := "[Errno 13] Permission denied: 'report.pdf'" |}.

Definition provider_down : exn :=
  {| exn_kind := OtherException; exn_str := "connection refused" |}.

Definition example_world (download : string -> result (list bar))
           (save : figure -> option exn) : world :=
  {| float_of_str := fun _ => None;
     yf_download := download;
     PdfPages := fun _ => None;
     pdf_savefig := save |}.

(** Every download gives two bars and every page is saved. *)
Definition quiet_world : world :=
  example_world (fun _ => Ok two_bars) (fun _ => None).

(** Saving the page of [AAA] meets a locked destination file. *)
Definition locked_for_AAA : world :=
  example_world (fun _ => Ok two_bars)
    (fun fig => if String.eqb (fig_ticker fig) "AAA"
                then Some permission_denied else None).

(** The download for [AAA] is empty, has one bar, or fails. *)
Definition no_data_for_AAA : world :=
  example_world (fun t => if String.eqb t "AAA" then Ok [] else Ok two_bars)
    (fun _ => None).

Definition one_bar_for_AAA : world :=
  example_world
    (fun t => if String.eqb t "AAA" then Ok [bar_at 1 100] else Ok two_bars)
    (fun _ => None).

Definition download_fails_for_AAA : world :=
  example_world
    (fun t => if String.eqb t "AAA" then Raise provider_down else Ok two_bars)
    (fun _ => None).

End Samples.

(* ===================================================================== *)
(** * Order-preserving selections                                         *)
(* ===================================================================== *)

(** [subseq xs ys]: [xs] is [ys] with some entries left out, the others
    in their order. *)
Inductive subseq {A : Type} : list A -> list A -> Prop :=
| subseq_nil : subseq [] []
| subseq_skip (y : A) (xs ys : list A) : subseq xs ys -> subseq xs (y :: ys)
| subseq_keep (x : A) (xs ys : list A) : subseq xs ys -> subseq (x :: xs) (x :: ys).

(** The number of quote characters of a string. *)
Fixpoint count_quotes (s : string) : nat :=
  match s with
  | EmptyString => 0
  | String c rest =>
      (if Ascii.eqb c "'"%char then 1 else 0) + count_quotes rest
  end.

(** The day-to-day moves of finite closes, with 0 at index 0 where
    there is no previous day. *)
Definition moves (cs : list Q) : list Q :=
  match cs with
  | [] => []
  | c :: rest => 0%Q :: qdiff_from c rest
  end.


(** The report of a run over the two sample rows when the download for
    [AAA] is empty: the page of [BBB] and three printed lines. *)
Definition report_without_AAA : run_state :=
  {| pages := page_of no_data_for_AAA two_rows "strong_buy" "BBB";
     printed := [msg_skipping "AAA"; msg_added "BBB" "report.pdf";
                 "PDF report created: report.pdf"%string] |}.


(* ===================================================================== *)
(** * Rolling windows                                                     *)
(* ===================================================================== *)

Section RollingFacts.

Local Open Scope Q_scope.

Lemma firstn_cons_firstn {A : Type} (w : nat) (x : A) (l : list A) :
  firstn w (x :: firstn w l) = firstn w (x :: l).
Proof.
  destruct w as [|w]; [reflexivity|].
  rewrite !firstn_cons. f_equal.
  rewrite firstn_firstn. f_equal. lia.
Qed.

Lemma rolling_aux_length (w mp : nat) (xs hist : series) :
  length (rolling_aux w mp hist xs) = length xs.
Proof.
  revert hist. induction xs as [|x xs IH]; intros hist; simpl; auto.
Qed.

Lemma rolling_mean_length (w mp : nat) (xs : series) :
  length (rolling_mean w mp xs) = length xs.
Proof. apply rolling_aux_length. Qed.

Lemma rolling_aux_nth (w mp : nat) (xs pre : series) (i : nat) :
  (i < length xs)%nat ->
  nth i (rolling_aux w mp (firstn w (rev pre)) xs) NaN
  = window_mean mp (firstn w (rev (pre ++ firstn (S i) xs))).
Proof.
  revert pre i. induction xs as [|x xs IH]; intros pre i Hi; simpl in Hi.
  - lia.
  - cbn [rolling_aux].
    assert (Hh : firstn w (x :: firstn w (rev pre)) = firstn w (rev (pre ++ [x]))).
    { rewrite firstn_cons_firstn, rev_app_distr. reflexivity. }
    rewrite Hh.
    destruct i as [|i].
    + reflexivity.
    + cbn [nth]. rewrite (IH (pre ++ [x]) i) by lia.
      rewrite <- app_assoc. reflexivity.
Qed.

Lemma rolling_mean_nth (w mp : nat) (xs : series) (i : nat) :
  (i < length xs)%nat ->
  nth i (rolling_mean w mp xs) NaN = window_mean mp (window w xs i).
Proof.
  intros Hi. unfold rolling_mean, window.
  pose proof (rolling_aux_nth w mp xs [] i Hi) as H.
  cbn [rev app] in H. rewrite firstn_nil in H. exact H.
Qed.

Lemma window_length {A : Type} (w : nat) (xs : list A) (i : nat) :
  (i < length xs)%nat -> length (window w xs i) = Nat.min w (S i).
Proof.
  intros Hi. unfold window.
  rewrite length_firstn, length_rev, length_firstn. lia.
Qed.

Lemma window_map {A B : Type} (f : A -> B) (w : nat) (xs : list A) (i : nat) :
  window w (map f xs) i = map f (window w xs i).
Proof.
  unfold window. rewrite firstn_map, <- map_rev, firstn_map. reflexivity.
Qed.

Lemma In_firstn {A : Type} (n : nat) (l : list A) (x : A) :
  In x (firstn n l) -> In x l.
Proof.
  intros Hin. rewrite <- (firstn_skipn n l). apply in_or_app. now left.
Qed.

Lemma window_incl {A : Type} (w : nat) (xs : list A) (i : nat) (x : A) :
  In x (window w xs i) -> In x xs.
Proof.
  unfold window. intros Hin.
  apply In_firstn, in_rev, In_firstn in Hin. exact Hin.
Qed.

Lemma window_In {A : Type} (w : nat) (xs : list A) (i : nat) (d x : A) :
  (i < length xs)%nat ->
  In x (window w xs i) ->
  exists k, (k <= i)%nat /\ (i < k + w)%nat /\ (k < length xs)%nat /\ nth k xs d = x.
Proof.
  unfold window. intros Hi Hin.
  rewrite firstn_rev in Hin. apply in_rev in Hin.
  rewrite length_firstn in Hin.
  destruct (In_nth _ _ d Hin) as [j [Hj Hnth]].
  rewrite length_skipn, length_firstn in Hj.
  rewrite nth_skipn in Hnth.
  assert (Hlt : (Nat.min (S i) (length xs) - w + j < S i)%nat) by lia.
  rewrite nth_firstn in Hnth.
  apply Nat.ltb_lt in Hlt. rewrite Hlt in Hnth. apply Nat.ltb_lt in Hlt.
  exists (Nat.min (S i) (length xs) - w + j)%nat.
  repeat split; try lia. exact Hnth.
Qed.

Lemma In_window {A : Type} (w : nat) (xs : list A) (i k : nat) (d : A) :
  (k <= i)%nat -> (i < k + w)%nat -> (i < length xs)%nat ->
  In (nth k xs d) (window w xs i).
Proof.
  intros Hk Hw Hi. unfold window.
  rewrite firstn_rev, <- in_rev, length_firstn.
  replace (Nat.min (S i) (length xs)) with (S i) by lia.
  assert (Hnth : nth (k - (S i - w)) (skipn (S i - w) (firstn (S i) xs)) d = nth k xs d).
  { rewrite nth_skipn, nth_firstn.
    replace (S i - w + (k - (S i - w)))%nat with k by lia.
    assert (Hlt : (k <? S i)%nat = true) by (apply Nat.ltb_lt; lia).
    rewrite Hlt. reflexivity. }
  rewrite <- Hnth. apply nth_In.
  rewrite length_skipn, length_firstn. lia.
Qed.

(** Sums of finite entries stay finite. *)
Lemma fsum_Fin (qs : list Q) : fsum (map Fin qs) = Fin (Qsum qs).
Proof.
  induction qs as [|q qs IH]; [reflexivity|].
  unfold fsum in *. simpl. rewrite IH. reflexivity.
Qed.

Lemma filter_notnan_Fin (qs : list Q) :
  filter (fun x => negb (isnan x)) (map Fin qs) = map Fin qs.
Proof.
  induction qs as [|q qs IH]; [reflexivity|]. simpl. now rewrite IH.
Qed.

Lemma window_mean_Fin (mp : nat) (qs : list Q) :
  window_mean mp (map Fin qs)
  = if (mp <=? length qs)%nat
    then fdiv (Fin (Qsum qs)) (of_nat (length qs))
    else NaN.
Proof.
  unfold window_mean. rewrite filter_notnan_Fin, length_map, fsum_Fin.
  reflexivity.
Qed.

Lemma window_mean_short (mp : nat) (win : series) :
  (length win < mp)%nat -> window_mean mp win = NaN.
Proof.
  intros Hlen. unfold window_mean.
  pose proof (filter_length_le (fun x => negb (isnan x)) win) as Hle.
  destruct (Nat.leb_spec mp (length (filter (fun x => negb (isnan x)) win)));
    [lia | reflexivity].
Qed.

Lemma Qsum_app (l1 l2 : list Q) : Qsum (l1 ++ l2) == Qsum l1 + Qsum l2.
Proof.
  induction l1 as [|a l1 IH]; simpl.
  - ring.
  - rewrite IH. ring.
Qed.

Lemma Qsum_rev (l : list Q) : Qsum (rev l) == Qsum l.
Proof.
  induction l as [|a l IH]; simpl.
  - reflexivity.
  - rewrite Qsum_app, IH. simpl. ring.
Qed.

Lemma Qsum_nonneg (l : list Q) :
  (forall q, In q l -> 0 <= q) -> 0 <= Qsum l.
Proof.
  induction l as [|a l IH]; intros Hall; simpl.
  - apply Qle_refl.
  - assert (0 <= a) by (apply Hall; now left).
    assert (0 <= Qsum l) by (apply IH; intros q Hq; apply Hall; now right).
    lra.
Qed.

Lemma Qsum_zero (l : list Q) :
  (forall q, In q l -> q == 0) -> Qsum l == 0.
Proof.
  induction l as [|a l IH]; intros Hall; simpl.
  - reflexivity.
  - rewrite (Hall a) by now left.
    rewrite IH by (intros q Hq; apply Hall; now right). ring.
Qed.

Lemma Qsum_pos (l : list Q) (x : Q) :
  (forall q, In q l -> 0 <= q) -> In x l -> 0 < x -> 0 < Qsum l.
Proof.
  induction l as [|a l IH]; intros Hall Hin Hx; simpl.
  - destruct Hin.
  - assert (0 <= a) by (apply Hall; now left).
    assert (0 <= Qsum l) by (apply Qsum_nonneg; intros q Hq; apply Hall; now right).
    destruct Hin as [-> | Hin].
    + lra.
    + assert (0 < Qsum l) by (apply IH; auto; intros q Hq; apply Hall; now right).
      lra.
Qed.

End RollingFacts.

(* ===================================================================== *)
(** * Moving averages                                                     *)
(* ===================================================================== *)

Section MovingAverages.

Local Open Scope Q_scope.

Lemma sum_from_cons (x : Q) (xs : list Q) (lo n : nat) :
  sum_from (x :: xs) (S lo) n = sum_from xs lo n.
Proof.
  revert lo. induction n as [|n IH]; intros lo; simpl; [reflexivity|].
  now rewrite IH.
Qed.

Lemma Qsum_firstn (xs : list Q) (n : nat) :
  (n <= length xs)%nat -> Qsum (firstn n xs) == sum_from xs 0 n.
Proof.
  revert n. induction xs as [|x xs IH]; intros n Hn; simpl in Hn.
  - assert (n = 0)%nat as -> by lia. reflexivity.
  - destruct n as [|n]; [reflexivity|].
    cbn [firstn sum_from nth]. unfold Qsum in *. cbn [fold_right].
    rewrite sum_from_cons, IH by lia. reflexivity.
Qed.

Lemma Qsum_slice (xs : list Q) (lo n : nat) :
  (lo + n <= length xs)%nat ->
  Qsum (skipn lo (firstn (lo + n) xs)) == sum_from xs lo n.
Proof.
  revert xs. induction lo as [|lo IH]; intros xs Hlen.
  - cbn [skipn Nat.add]. now apply Qsum_firstn.
  - destruct xs as [|x xs]; simpl in Hlen; [lia|].
    destruct n as [|n].
    + cbn [sum_from]. rewrite Nat.add_0_r.
      rewrite skipn_all2 by (rewrite length_firstn; lia). reflexivity.
    + rewrite sum_from_cons.
      replace (S lo + S n)%nat with (S (lo + S n)) by lia.
      cbn [firstn skipn]. apply IH. lia.
Qed.

Lemma Qsum_window (w : nat) (close : list Q) (i : nat) :
  (i < length close)%nat ->
  Qsum (window w close i) == sum_from close (S i - w) (Nat.min w (S i)).
Proof.
  intros Hi. unfold window.
  rewrite firstn_rev, Qsum_rev, length_firstn.
  replace (Nat.min (S i) (length close)) with (S i) by lia.
  assert (Hsplit : S i = (S i - w + Nat.min w (S i))%nat) by lia.
  rewrite Hsplit at 2.
  apply Qsum_slice. lia.
Qed.

Lemma fdiv_count (a : Q) (n : nat) :
  (0 < n)%nat -> fdiv (Fin a) (of_nat n) = Fin (a / inject_Z (Z.of_nat n)).
Proof.
  intros Hn. unfold fdiv, of_nat.
  destruct (Qeq_bool (inject_Z (Z.of_nat n)) 0) eqn:E; [|reflexivity].
  apply Qeq_bool_eq in E.
  unfold Qeq, inject_Z in E. simpl in E. lia.
Qed.

(** A rolling mean with [min_periods = 1] over finite data is, at every
    index, the mean of the shrinking window. *)
Lemma rolling_mean_shrinking (w : nat) (close : list Q) (i : nat) :
  (0 < w)%nat -> (i < length close)%nat ->
  exists q, nth i (rolling_mean w 1 (map Fin close)) NaN = Fin q
            /\ q == mean_over close (i - (w - 1)) i.
Proof.
  intros Hw Hi.
  rewrite rolling_mean_nth by (rewrite length_map; exact Hi).
  rewrite window_map, window_mean_Fin, window_length by exact Hi.
  assert (Hmin : (1 <=? Nat.min w (S i))%nat = true) by (apply Nat.leb_le; lia).
  rewrite Hmin, fdiv_count by lia.
  eexists. split; [reflexivity|].
  unfold mean_over.
  replace (S i - (i - (w - 1)))%nat with (Nat.min w (S i)) by lia.
  replace (i - (w - 1))%nat with (S i - w)%nat by lia.
  rewrite Qsum_window by exact Hi. reflexivity.
Qed.

End MovingAverages.

(** C6. For every non-empty price series and every index [i] of it,
    the 50-period average at [i] is the arithmetic mean of the closes over
    [[max(0, i-49), i]] and the 200-period average the mean over
    [[max(0, i-199), i]]; both columns have the length of the input (no
    error on short input), and at index 0 both equal [close[0]]. *)
Theorem moving_averages_are_shrinking_window_means (close : list Q) (i : nat) :
  (i < length close)%nat ->
  (exists q, nth i (MA_50 (map Fin close)) NaN = Fin q
             /\ (q == mean_over close (Nat.max 0 (i - 49)) i)%Q)
  /\ (exists q, nth i (MA_200 (map Fin close)) NaN = Fin q
                /\ (q == mean_over close (Nat.max 0 (i - 199)) i)%Q)
  /\ length (MA_50 (map Fin close)) = length close
  /\ length (MA_200 (map Fin close)) = length close
  /\ feq (nth 0 (MA_50 (map Fin close)) NaN) (Fin (nth 0 close 0%Q))
  /\ feq (nth 0 (MA_200 (map Fin close)) NaN) (Fin (nth 0 close 0%Q)).
Proof.
  intros Hi. unfold MA_50, MA_200.
  rewrite !rolling_mean_length, !length_map.
  repeat split.
  - apply (rolling_mean_shrinking 50 close i); lia.
  - apply (rolling_mean_shrinking 200 close i); lia.
  - destruct (rolling_mean_shrinking 50 close 0) as [q [-> Hq]]; [lia|lia|].
    simpl. rewrite Hq. unfold mean_over. simpl. field.
  - destruct (rolling_mean_shrinking 200 close 0) as [q [-> Hq]]; [lia|lia|].
    simpl. rewrite Hq. unfold mean_over. simpl. field.
Qed.

(** Twenty rising closes, index 19: the window is the whole series. *)
Lemma moving_averages_witness :
  (19 < length (rising_closes 20))%nat
  /\ exists q, nth 19 (MA_50 (map Fin (rising_closes 20))) NaN = Fin q
               /\ (q == mean_over (rising_closes 20) (Nat.max 0 (19 - 49)) 19)%Q.
Proof.
  split; [simpl; lia|].
  apply (moving_averages_are_shrinking_window_means (rising_closes 20) 19).
  simpl; lia.
Defined.

(* ===================================================================== *)
(** * The oscillator                                                      *)
(* ===================================================================== *)

Section Oscillator.

Local Open Scope Q_scope.

Lemma diff_from_Fin (p : Q) (cs : list Q) :
  diff_from (Fin p) (map Fin cs) = map Fin (qdiff_from p cs).
Proof.
  revert p. induction cs as [|c cs IH]; intros p; simpl; [reflexivity|].
  now rewrite IH.
Qed.

Lemma gain_input_Fin (cs : list Q) :
  where_ (fun d => fgt d (Fin 0)) (Fin 0) (delta (map Fin cs))
  = map Fin (ups cs).
Proof.
  destruct cs as [|c cs]; [reflexivity|].
  unfold delta, where_. cbn [map diff ups]. rewrite diff_from_Fin.
  cbn [fgt]. f_equal. rewrite !map_map.
  apply map_ext. intros d. unfold up_move. cbn [fgt].
  now destruct (d ?= 0).
Qed.

Lemma loss_input_Fin (cs : list Q) :
  neg (where_ (fun d => flt d (Fin 0)) (Fin 0) (delta (map Fin cs)))
  = map Fin (downs cs).
Proof.
  destruct cs as [|c cs]; [reflexivity|].
  unfold delta, where_, neg. cbn [map diff downs]. rewrite diff_from_Fin.
  cbn [flt fgt fneg]. f_equal. rewrite !map_map.
  apply map_ext. intros d. unfold down_move, flt. cbn [fgt].
  now destruct (0 ?= d).
Qed.

Lemma qdiff_from_length (p : Q) (cs : list Q) :
  length (qdiff_from p cs) = length cs.
Proof. revert p. induction cs; intros p; simpl; auto. Qed.

Lemma ups_length (cs : list Q) : length (ups cs) = length cs.
Proof.
  destruct cs; simpl; [reflexivity|].
  now rewrite length_map, qdiff_from_length.
Qed.

Lemma downs_length (cs : list Q) : length (downs cs) = length cs.
Proof.
  destruct cs; simpl; [reflexivity|].
  now rewrite length_map, qdiff_from_length.
Qed.

Lemma nth_qdiff_from (p : Q) (cs : list Q) (k : nat) :
  (k < length cs)%nat ->
  nth k (qdiff_from p cs) 0 = nth k cs 0 + - nth k (p :: cs) 0.
Proof.
  revert p k. induction cs as [|c cs IH]; intros p k Hk; simpl in Hk; [lia|].
  destruct k as [|k]; [reflexivity|].
  cbn [qdiff_from nth]. rewrite IH by lia. reflexivity.
Qed.

Lemma nth_ups (cs : list Q) (k : nat) :
  (S k < length cs)%nat ->
  nth (S k) (ups cs) 0 = up_move (nth (S k) cs 0 + - nth k cs 0).
Proof.
  destruct cs as [|c cs]; simpl; intros Hk; [lia|].
  change 0 with (up_move 0) at 1. rewrite map_nth.
  rewrite nth_qdiff_from by lia. reflexivity.
Qed.

Lemma nth_downs (cs : list Q) (k : nat) :
  (S k < length cs)%nat ->
  nth (S k) (downs cs) (- 0) = down_move (nth (S k) cs 0 + - nth k cs 0).
Proof.
  destruct cs as [|c cs]; simpl; intros Hk; [lia|].
  change (- 0) with (down_move 0) at 1. rewrite map_nth.
  rewrite nth_qdiff_from by lia. reflexivity.
Qed.

Lemma up_move_nonneg (d : Q) : 0 <= up_move d.
Proof.
  unfold up_move. destruct (d ?= 0) eqn:E; try apply Qle_refl.
  apply Qgt_alt in E. lra.
Qed.

Lemma down_move_nonneg (d : Q) : 0 <= down_move d.
Proof.
  unfold down_move. destruct (0 ?= d) eqn:E; try (now compute).
  apply Qgt_alt in E. lra.
Qed.

Lemma up_move_pos (d : Q) : 0 < d -> up_move d == d.
Proof.
  intros Hd. unfold up_move.
  apply Qgt_alt in Hd. rewrite Hd. reflexivity.
Qed.

Lemma down_move_neg (d : Q) : d < 0 -> down_move d == - d.
Proof.
  intros Hd. unfold down_move.
  apply Qgt_alt in Hd. rewrite Hd. reflexivity.
Qed.

Lemma up_move_nonpos (d : Q) : d <= 0 -> up_move d == 0.
Proof.
  intros Hd. unfold up_move. destruct (d ?= 0) eqn:E; try reflexivity.
  apply Qgt_alt in E. lra.
Qed.

Lemma down_move_nonneg_arg (d : Q) : 0 <= d -> down_move d == 0.
Proof.
  intros Hd. unfold down_move. destruct (0 ?= d) eqn:E; try reflexivity.
  apply Qgt_alt in E. lra.
Qed.

Lemma ups_nonneg (cs : list Q) (q : Q) : In q (ups cs) -> 0 <= q.
Proof.
  destruct cs as [|c cs]; simpl; [tauto|].
  intros [<- | Hin]; [apply Qle_refl|].
  apply in_map_iff in Hin. destruct Hin as [d [<- _]]. apply up_move_nonneg.
Qed.

Lemma downs_nonneg (cs : list Q) (q : Q) : In q (downs cs) -> 0 <= q.
Proof.
  destruct cs as [|c cs]; simpl; [tauto|].
  intros [<- | Hin]; [now compute|].
  apply in_map_iff in Hin. destruct Hin as [d [<- _]]. apply down_move_nonneg.
Qed.

End Oscillator.

Section OscillatorValues.

Local Open Scope Q_scope.

Lemma map2_length (f : pyfloat -> pyfloat -> pyfloat) (xs ys : series) :
  length xs = length ys -> length (map2 f xs ys) = length xs.
Proof.
  revert ys. induction xs as [|x xs IH]; intros [|y ys] H; simpl in *;
    try reflexivity; try discriminate.
  f_equal. apply IH. lia.
Qed.

Lemma map2_nth (f : pyfloat -> pyfloat -> pyfloat) (xs ys : series) (i : nat) :
  length xs = length ys -> f NaN NaN = NaN ->
  nth i (map2 f xs ys) NaN = f (nth i xs NaN) (nth i ys NaN).
Proof.
  intros Hlen Hf. revert ys i Hlen.
  induction xs as [|x xs IH]; intros [|y ys] i Hlen; simpl in Hlen;
    try discriminate.
  - destruct i; simpl; now rewrite Hf.
  - destruct i as [|i]; simpl; [reflexivity|]. apply IH. lia.
Qed.

Lemma diff_length (close : series) : length (diff close) = length close.
Proof.
  destruct close as [|c close]; simpl; [reflexivity|]. f_equal.
  revert c. induction close as [|x close IH]; intros c; simpl; auto.
Qed.

Lemma gain_length (close : series) : length (gain close) = length close.
Proof.
  unfold gain, where_, delta.
  now rewrite rolling_mean_length, length_map, diff_length.
Qed.

Lemma loss_length (close : series) : length (loss close) = length close.
Proof.
  unfold loss, neg, where_, delta.
  now rewrite rolling_mean_length, !length_map, diff_length.
Qed.

(** The oscillator at an index is the formula applied to the two
    averages at that index (beyond the end all three read as [nan]). *)
Lemma RSI_nth (close : series) (i : nat) :
  nth i (RSI close) NaN
  = rsi_of_rs (fdiv (nth i (gain close) NaN) (nth i (loss close) NaN)).
Proof.
  unfold RSI, rs.
  change NaN with (rsi_of_rs NaN) at 1. rewrite map_nth.
  rewrite map2_nth; [reflexivity| |reflexivity].
  now rewrite gain_length, loss_length.
Qed.

(** Below index 13 the 14-wide windows hold fewer than 14 entries. *)
Lemma gain_warmup (close : series) (i : nat) :
  (i < 13)%nat -> nth i (gain close) NaN = NaN.
Proof.
  intros Hi. destruct (Nat.lt_ge_cases i (length (gain close))) as [Hlt|Hge].
  - unfold gain in *. rewrite rolling_mean_length in Hlt.
    rewrite rolling_mean_nth by exact Hlt.
    apply window_mean_short. rewrite window_length by exact Hlt. lia.
  - now apply nth_overflow.
Qed.

(** From index 13 on both averages are finite and non-negative: one
    fourteenth of the sum of the window of up-moves (down-moves). *)
Lemma gain_full (cs : list Q) (i : nat) :
  (13 <= i < length cs)%nat ->
  nth i (gain (map Fin cs)) NaN
  = Fin (Qsum (window 14 (ups cs) i) / inject_Z (Z.of_nat 14)).
Proof.
  intros Hi. unfold gain. rewrite gain_input_Fin.
  rewrite rolling_mean_nth by (rewrite length_map, ups_length; lia).
  rewrite window_map, window_mean_Fin.
  rewrite window_length by (rewrite ups_length; lia).
  replace (Nat.min 14 (S i)) with 14%nat by lia.
  cbn [Nat.leb]. now rewrite fdiv_count by lia.
Qed.

Lemma loss_full (cs : list Q) (i : nat) :
  (13 <= i < length cs)%nat ->
  nth i (loss (map Fin cs)) NaN
  = Fin (Qsum (window 14 (downs cs) i) / inject_Z (Z.of_nat 14)).
Proof.
  intros Hi. unfold loss. rewrite loss_input_Fin.
  rewrite rolling_mean_nth by (rewrite length_map, downs_length; lia).
  rewrite window_map, window_mean_Fin.
  rewrite window_length by (rewrite downs_length; lia).
  replace (Nat.min 14 (S i)) with 14%nat by lia.
  cbn [Nat.leb]. now rewrite fdiv_count by lia.
Qed.

Lemma window_ups_nonneg (cs : list Q) (i : nat) :
  0 <= Qsum (window 14 (ups cs) i) / inject_Z (Z.of_nat 14).
Proof.
  apply Qle_shift_div_l; [reflexivity|].
  assert (0 <= Qsum (window 14 (ups cs) i)).
  { apply Qsum_nonneg. intros q Hq.
    apply window_incl in Hq. now apply ups_nonneg in Hq. }
  lra.
Qed.

Lemma window_downs_nonneg (cs : list Q) (i : nat) :
  0 <= Qsum (window 14 (downs cs) i) / inject_Z (Z.of_nat 14).
Proof.
  apply Qle_shift_div_l; [reflexivity|].
  assert (0 <= Qsum (window 14 (downs cs) i)).
  { apply Qsum_nonneg. intros q Hq.
    apply window_incl in Hq. now apply downs_nonneg in Hq. }
  lra.
Qed.

(** The formula on two finite, non-negative averages. *)
Lemma rsi_saturates (g l : Q) :
  l == 0 -> 0 < g -> feq (rsi_of_rs (fdiv (Fin g) (Fin l))) (Fin 100).
Proof.
  intros Hl Hg. unfold fdiv.
  apply Qeq_bool_iff in Hl. rewrite Hl.
  apply Qgt_alt in Hg. rewrite Hg.
  cbn. reflexivity.
Qed.

Lemma rsi_zero_over_zero (g l : Q) :
  l == 0 -> g == 0 -> rsi_of_rs (fdiv (Fin g) (Fin l)) = NaN.
Proof.
  intros Hl Hg. unfold fdiv.
  apply Qeq_bool_iff in Hl. rewrite Hl.
  apply Qeq_alt in Hg. rewrite Hg. reflexivity.
Qed.

Lemma rsi_ratio (g l : Q) :
  0 <= g -> 0 < l ->
  exists q, rsi_of_rs (fdiv (Fin g) (Fin l)) = Fin q
            /\ q == 100 - 100 / (1 + g / l)
            /\ 0 <= q <= 100.
Proof.
  intros Hg Hl. unfold fdiv.
  destruct (Qeq_bool l 0) eqn:El.
  { apply Qeq_bool_iff in El. lra. }
  assert (Hr : 0 <= g / l) by (apply Qle_shift_div_l; lra).
  unfold rsi_of_rs. cbn [fadd].
  set (r := g / l) in *. cbn [fdiv].
  destruct (Qeq_bool (1 + r) 0) eqn:Er.
  { apply Qeq_bool_iff in Er. lra. }
  cbn [fsub fneg fadd].
  eexists. split; [reflexivity|]. split; [reflexivity|].
  assert (H1 : 100 / (1 + r) <= 100) by (apply Qle_shift_div_r; lra).
  assert (H2 : 0 <= 100 / (1 + r)) by (apply Qle_shift_div_l; lra).
  lra.
Qed.

End OscillatorValues.

Section OscillatorWindows.

Local Open Scope Q_scope.

(** The real deltas in the window that ends at [i] are
    [close[k+1] - close[k]] for [i - 14 <= k < i]. *)

Lemma window_downs_zero (cs : list Q) (i : nat) :
  (i < length cs)%nat ->
  (forall k, (i - 14 <= k < i)%nat -> nth k cs 0 <= nth (S k) cs 0) ->
  Qsum (window 14 (downs cs) i) == 0.
Proof.
  intros Hi Hmono. apply Qsum_zero. intros q Hq.
  apply (window_In 14 (downs cs) i (- 0)) in Hq;
    [|rewrite downs_length; exact Hi].
  destruct Hq as [j [Hj1 [Hj2 [Hj3 <-]]]].
  rewrite downs_length in Hj3.
  destruct j as [|k].
  - destruct cs; simpl in *; [lia | reflexivity].
  - rewrite nth_downs by exact Hj3.
    apply down_move_nonneg_arg.
    assert (nth k cs 0 <= nth (S k) cs 0) by (apply Hmono; lia). lra.
Qed.

Lemma window_ups_zero (cs : list Q) (i : nat) :
  (i < length cs)%nat ->
  (forall k, (i - 14 <= k < i)%nat -> nth (S k) cs 0 <= nth k cs 0) ->
  Qsum (window 14 (ups cs) i) == 0.
Proof.
  intros Hi Hmono. apply Qsum_zero. intros q Hq.
  apply (window_In 14 (ups cs) i 0) in Hq;
    [|rewrite ups_length; exact Hi].
  destruct Hq as [j [Hj1 [Hj2 [Hj3 <-]]]].
  rewrite ups_length in Hj3.
  destruct j as [|k].
  - destruct cs; simpl in *; [lia | reflexivity].
  - rewrite nth_ups by exact Hj3.
    apply up_move_nonpos.
    assert (nth (S k) cs 0 <= nth k cs 0) by (apply Hmono; lia). lra.
Qed.

Lemma window_ups_pos (cs : list Q) (i k : nat) :
  (i < length cs)%nat -> (i - 14 <= k < i)%nat ->
  nth k cs 0 < nth (S k) cs 0 ->
  0 < Qsum (window 14 (ups cs) i).
Proof.
  intros Hi Hk Hlt.
  apply (Qsum_pos _ (nth (S k) (ups cs) 0)).
  - intros q Hq. apply window_incl in Hq. now apply ups_nonneg in Hq.
  - apply In_window; [lia | lia | rewrite ups_length; exact Hi].
  - rewrite nth_ups by lia. rewrite up_move_pos; lra.
Qed.

Lemma window_downs_pos (cs : list Q) (i k : nat) :
  (i < length cs)%nat -> (i - 14 <= k < i)%nat ->
  nth (S k) cs 0 < nth k cs 0 ->
  0 < Qsum (window 14 (downs cs) i).
Proof.
  intros Hi Hk Hlt.
  apply (Qsum_pos _ (nth (S k) (downs cs) (- 0))).
  - intros q Hq. apply window_incl in Hq. now apply downs_nonneg in Hq.
  - apply In_window; [lia | lia | rewrite downs_length; exact Hi].
  - rewrite nth_downs by lia. rewrite down_move_neg; lra.
Qed.

Lemma fourteenth_pos (s : Q) : 0 < s -> 0 < s / inject_Z (Z.of_nat 14).
Proof. intros Hs. apply Qlt_shift_div_l; [reflexivity | lra]. Qed.

Lemma fourteenth_zero (s : Q) : s == 0 -> s / inject_Z (Z.of_nat 14) == 0.
Proof. intros ->. reflexivity. Qed.

Lemma feq_Fin_inv (x : pyfloat) (q : Q) :
  feq x (Fin q) -> exists q', x = Fin q' /\ q' == q.
Proof.
  destruct x as [a| | |]; simpl; try tauto. intros H. now exists a.
Qed.

End OscillatorWindows.

(* ===================================================================== *)
(** * Properties of the oscillator                                        *)
(* ===================================================================== *)

(** The end-to-end scenario of the specification: twenty rising closes
    give [ma_fast[19] = 109.5] and an oscillator of 100. *)
Example scenario_twenty_rising_closes :
  feq (nth 19 (MA_50 (map Fin (rising_closes 20))) NaN) (Fin (219 # 2))
  /\ feq (nth 19 (RSI (map Fin (rising_closes 20))) NaN) (Fin 100).
Proof. split; vm_compute; reflexivity. Qed.

(** C7. At every index of every price series the oscillator is either
    undefined ([nan]) or a number in the closed interval [[0, 100]]. *)
Theorem oscillator_bounded (cs : list Q) (i : nat) :
  nth i (RSI (map Fin cs)) NaN = NaN
  \/ exists q, nth i (RSI (map Fin cs)) NaN = Fin q /\ (0 <= q <= 100)%Q.
Proof.
  rewrite RSI_nth.
  destruct (Nat.lt_ge_cases i 13) as [Hwarm | Hfull].
  { left. now rewrite gain_warmup. }
  destruct (Nat.lt_ge_cases i (length cs)) as [Hin | Hout].
  2:{ left. rewrite (nth_overflow (gain _)); [reflexivity|].
      now rewrite gain_length, length_map. }
  rewrite gain_full, loss_full by lia.
  pose proof (window_ups_nonneg cs i) as Hg.
  pose proof (window_downs_nonneg cs i) as Hl.
  set (g := (Qsum (window 14 (ups cs) i) / inject_Z (Z.of_nat 14))%Q) in *.
  set (l := (Qsum (window 14 (downs cs) i) / inject_Z (Z.of_nat 14))%Q) in *.
  destruct (Qlt_le_dec 0 l) as [Hpos | Hle].
  - right. destruct (rsi_ratio g l Hg Hpos) as [q [Hq [_ Hb]]]. now exists q.
  - assert (Hl0 : (l == 0)%Q) by (apply Qle_antisym; assumption).
    destruct (Qlt_le_dec 0 g) as [Hgpos | Hgle].
    + right. destruct (feq_Fin_inv _ _ (rsi_saturates g l Hl0 Hgpos)) as [q [Hq Hv]].
      exists q. split; [exact Hq|]. rewrite Hv. split; discriminate.
    + left. apply rsi_zero_over_zero; [exact Hl0|].
      apply Qle_antisym; assumption.
Qed.

(** C3, counterexample. Fifteen equal closes: at index 14 the window
    holds fourteen zero deltas, the average loss is 0, and the oscillator
    is [nan], not 100. *)
Lemma flat_prices_do_not_saturate : ~ saturates_when_no_loss (flat_closes 15) 14.
Proof.
  unfold saturates_when_no_loss. intros H.
  specialize (H ltac:(simpl; lia) (0 # 14) eq_refl eq_refl).
  vm_compute in H. exact H.
Qed.

(** C3, amended. At an index where the rolling window is full (13 or
    later) and the average loss is exactly 0, the oscillator is 100 when
    the average gain is positive and [nan] when the average gain is 0 as
    well.  In particular, when no close in the window is below its
    predecessor, the oscillator is 100 if some close is above its
    predecessor and [nan] if all closes are equal. *)
Theorem oscillator_without_losses (cs : list Q) (i : nat) :
  (13 <= i < length cs)%nat ->
  (forall l, nth i (loss (map Fin cs)) NaN = Fin l -> (l == 0)%Q ->
     exists g, nth i (gain (map Fin cs)) NaN = Fin g /\ (0 <= g)%Q
       /\ ((0 < g)%Q -> feq (nth i (RSI (map Fin cs)) NaN) (Fin 100))
       /\ ((g == 0)%Q -> nth i (RSI (map Fin cs)) NaN = NaN))
  /\ ((forall k, (i - 14 <= k < i)%nat -> (nth k cs 0 <= nth (S k) cs 0)%Q) ->
      ((exists k, (i - 14 <= k < i)%nat /\ (nth k cs 0 < nth (S k) cs 0)%Q) ->
       feq (nth i (RSI (map Fin cs)) NaN) (Fin 100))
      /\ ((forall k, (i - 14 <= k < i)%nat -> (nth k cs 0 == nth (S k) cs 0)%Q) ->
          nth i (RSI (map Fin cs)) NaN = NaN)).
Proof.
  intros Hi. rewrite RSI_nth, gain_full, loss_full by exact Hi.
  split.
  - intros l Hl Hl0. injection Hl as <-.
    eexists. split; [reflexivity|]. split; [apply window_ups_nonneg|].
    split; intros Hg.
    + apply rsi_saturates; [exact Hl0 | exact Hg].
    + apply rsi_zero_over_zero; [exact Hl0 | exact Hg].
  - intros Hmono.
    assert (Hl0 : (Qsum (window 14 (downs cs) i) / inject_Z (Z.of_nat 14) == 0)%Q).
    { apply fourteenth_zero, window_downs_zero; [lia | exact Hmono]. }
    split.
    + intros [k [Hk Hlt]]. apply rsi_saturates; [exact Hl0|].
      apply fourteenth_pos. apply (window_ups_pos cs i k); [lia | exact Hk | exact Hlt].
    + intros Hflat. apply rsi_zero_over_zero; [exact Hl0|].
      apply fourteenth_zero, window_ups_zero; [lia|].
      intros k Hk. rewrite (Hflat k Hk). apply Qle_refl.
Qed.

(** Twenty rising closes at index 19: no losses, some gains, hence 100. *)
Lemma oscillator_without_losses_witness :
  (13 <= 19 < length (rising_closes 20))%nat
  /\ feq (nth 19 (RSI (map Fin (rising_closes 20))) NaN) (Fin 100).
Proof.
  split; [simpl; lia|].
  apply (oscillator_without_losses (rising_closes 20) 19).
  - simpl; lia.
  - intros k Hk.
    assert (Hc : (k = 5 \/ k = 6 \/ k = 7 \/ k = 8 \/ k = 9 \/ k = 10 \/ k = 11
                  \/ k = 12 \/ k = 13 \/ k = 14 \/ k = 15 \/ k = 16 \/ k = 17
                  \/ k = 18)%nat) by lia.
    repeat (destruct Hc as [-> | Hc]; [vm_compute; discriminate|]).
    subst k. vm_compute; discriminate.
  - exists 18%nat. split; [lia | reflexivity].
Defined.

(** C4, counterexample. Fourteen rising closes: the value at index 13 is
    100.  The [nan] that [diff] leaves at index 0 is replaced by 0 by
    [where], so the window of fourteen entries is already full at index
    13. *)
Lemma oscillator_defined_at_13 : ~ undefined_through_13 (rising_closes 14).
Proof.
  intros H. specialize (H 13%nat (le_n 13)). vm_compute in H. discriminate H.
Qed.

(** C4, amended. The oscillator is undefined at each of the first 13
    indices, 0 through 12; a defined value appears only at index 13 or
    later, and it does appear at such an index of the series as soon as
    two consecutive closes in the window differ. *)
Theorem oscillator_warmup (cs : list Q) (i : nat) :
  ((i < 13)%nat -> nth i (RSI (map Fin cs)) NaN = NaN)
  /\ ((13 <= i < length cs)%nat ->
      (exists k, (i - 14 <= k < i)%nat /\ ~ (nth k cs 0 == nth (S k) cs 0)%Q) ->
      exists q, nth i (RSI (map Fin cs)) NaN = Fin q).
Proof.
  split.
  - intros Hi. rewrite RSI_nth, gain_warmup by exact Hi. reflexivity.
  - intros Hi [k [Hk Hne]].
    rewrite RSI_nth, gain_full, loss_full by exact Hi.
    pose proof (window_ups_nonneg cs i) as Hg.
    pose proof (window_downs_nonneg cs i) as Hl.
    destruct (Qlt_le_dec (nth k cs 0) (nth (S k) cs 0)) as [Hup | Hle].
    + pose proof (fourteenth_pos _ (window_ups_pos cs i k (proj2 Hi) Hk Hup)) as Hgpos.
      destruct (Qlt_le_dec 0 (Qsum (window 14 (downs cs) i) / inject_Z (Z.of_nat 14)))
        as [Hlpos | Hlle].
      * destruct (rsi_ratio _ _ Hg Hlpos) as [q [Hq _]]. now exists q.
      * assert (Hl0 : (Qsum (window 14 (downs cs) i) / inject_Z (Z.of_nat 14) == 0)%Q)
          by (apply Qle_antisym; assumption).
        destruct (feq_Fin_inv _ _ (rsi_saturates _ _ Hl0 Hgpos)) as [q [Hq _]].
        now exists q.
    + assert (Hdown : (nth (S k) cs 0 < nth k cs 0)%Q).
      { destruct (Qlt_le_dec (nth (S k) cs 0) (nth k cs 0)) as [Hd | Hd]; [exact Hd|].
        exfalso. apply Hne. apply Qle_antisym; assumption. }
      pose proof (fourteenth_pos _ (window_downs_pos cs i k (proj2 Hi) Hk Hdown)) as Hlpos.
      destruct (rsi_ratio _ _ Hg Hlpos) as [q [Hq _]]. now exists q.
Qed.

(** Fourteen rising closes: [nan] at index 12, a number at index 13. *)
Lemma oscillator_warmup_witness :
  nth 12 (RSI (map Fin (rising_closes 14))) NaN = NaN
  /\ exists q, nth 13 (RSI (map Fin (rising_closes 14))) NaN = Fin q.
Proof.
  split.
  - apply (oscillator_warmup (rising_closes 14) 12). lia.
  - apply (oscillator_warmup (rising_closes 14) 13).
    + simpl; lia.
    + exists 0%nat. split; [lia | vm_compute; discriminate].
Defined.

(* ===================================================================== *)
(** * Properties of the candidate query                                   *)
(* ===================================================================== *)

Section CandidateQuery.

Local Open Scope string_scope.

(** What the query does guarantee: every returned row comes from a
    table row recommended ['strong_buy'], in the United States, with a
    market cap above the bound. *)
Lemma fetch_strong_buy_stocks_rows (engine : list stock) (m : Q)
      (rec_key : string) (row : df_row) :
  In row (fetch_strong_buy_stocks engine m rec_key) ->
  exists r, In r engine /\ row = select_columns r
            /\ Rec_Key r = Some "strong_buy"
            /\ Country r = Some "United States"
            /\ exists cap, Market_cap r = Some cap /\ (m < cap)%Q.
Proof.
  unfold fetch_strong_buy_stocks, read_sql, query_filtered.
  intros Hin. apply in_map_iff in Hin. destruct Hin as [r [<- Hr]].
  apply filter_In in Hr. destruct Hr as [Hr Hsat].
  unfold satisfies in Hsat. cbn in Hsat.
  apply andb_true_iff in Hsat. destruct Hsat as [Hsat Hcap].
  apply andb_true_iff in Hsat. destruct Hsat as [Hkey Hcountry].
  exists r. split; [exact Hr|]. split; [reflexivity|].
  unfold sql_eq in Hkey, Hcountry. unfold sql_gt in Hcap.
  destruct (Rec_Key r) as [k|]; [|discriminate].
  destruct (Country r) as [c|]; [|discriminate].
  destruct (Market_cap r) as [cap|]; [|discriminate].
  apply String.eqb_eq in Hkey, Hcountry. subst k c.
  repeat split. exists cap. split; [reflexivity|].
  destruct (cap ?= m)%Q eqn:E; try discriminate.
  now apply Qgt_alt in E.
Qed.

End CandidateQuery.

(** C1. The candidate fetch does not filter by the caller's
    recommendation key: asked for ["buy"] on a table holding one [buy] and
    one [strong_buy] stock, it returns the [strong_buy] one, and its
    result is the same for every key. *)
Theorem fetch_strong_buy_stocks_ignores_rec_key :
  map df_symbol (fetch_strong_buy_stocks two_stocks 20 "buy") = ["BBB"%string]
  /\ forall (engine : list stock) (m : Q) (k1 k2 : string),
       fetch_strong_buy_stocks engine m k1 = fetch_strong_buy_stocks engine m k2.
Proof.
  split; [reflexivity|]. intros engine m k1 k2. reflexivity.
Qed.

(* ===================================================================== *)
(** * Properties of the report loop                                       *)
(* ===================================================================== *)

Section ReportFacts.

Local Open Scope string_scope.

Variable w : world.
Variable df : list df_row.
Variables output_path rec_key : string.

(** The conversion of a change column succeeds unless the cell holds an
    over-large integer, whose [OverflowError] the inner handler does not
    catch. *)
Lemma change_to_float_overflow (c : cell) :
  cell_overflows c = true -> change_to_float w c = Raise int_too_large.
Proof.
  destruct c as [|f|z|s]; cbn [cell_overflows]; try discriminate.
  intros H. unfold change_to_float. cbn [notna float_]. now rewrite H.
Qed.

Lemma change_to_float_fits (c : cell) :
  cell_overflows c = false -> exists f, change_to_float w c = Ok f.
Proof.
  destruct c as [|f|z|s]; cbn [cell_overflows]; intros H;
    unfold change_to_float; cbn [notna float_].
  - eauto.
  - destruct (negb (isnan f)); eauto.
  - rewrite H. eauto.
  - destruct (float_of_str w s); cbn; eauto.
Qed.

Lemma change_to_float_Ok_cases (c : cell) (f : pyfloat) :
  change_to_float w c = Ok f ->
  (notna c = false -> f = Fin 0)
  /\ (forall e, float_ w c = Raise e -> f = Fin 0)
  /\ (forall v, notna c = true -> float_ w c = Ok v -> f = v).
Proof.
  unfold change_to_float.
  destruct c as [|x|z|s]; cbn [notna float_].
  - intros H. injection H as <-. repeat split; auto. discriminate.
  - destruct (isnan x) eqn:E; cbn [negb]; intros H; injection H as <-.
    + repeat split; auto. discriminate.
    + repeat split; try discriminate. intros v _ Hv. now injection Hv.
  - destruct (int_overflows z); cbn; [discriminate|].
    intros H. injection H as <-.
    repeat split; try discriminate. intros v _ Hv. now injection Hv.
  - destruct (float_of_str w s) as [x|]; cbn; intros H; injection H as <-.
    + repeat split; try discriminate. intros v _ Hv. now injection Hv.
    + repeat split; auto. discriminate.
Qed.

Lemma value_metrics_Ok_inv (row : df_row) (m : metrics) :
  value_metrics w row = Ok m ->
  target_lp m = df_Target_LP row
  /\ target_mean_p m = df_Target_Mean_P row
  /\ market_cap m = df_Market_Cap row
  /\ change_to_float w (df_MTD_Change row) = Ok (mtd_change m)
  /\ change_to_float w (df_YTD_Change row) = Ok (ytd_change m).
Proof.
  unfold value_metrics.
  destruct (change_to_float w (df_MTD_Change row)) as [mtd|e1]; [|discriminate].
  destruct (change_to_float w (df_YTD_Change row)) as [ytd|e2]; [|discriminate].
  cbn. intros H. injection H as <-. cbn. auto.
Qed.

Lemma value_metrics_Ok_iff (row : df_row) :
  (exists m, value_metrics w row = Ok m)
  <-> cell_overflows (df_MTD_Change row) = false
      /\ cell_overflows (df_YTD_Change row) = false.
Proof.
  split.
  - intros [m Hm]. apply value_metrics_Ok_inv in Hm.
    destruct Hm as [_ [_ [_ [Hmtd Hytd]]]].
    split.
    + destruct (cell_overflows (df_MTD_Change row)) eqn:E; [|reflexivity].
      rewrite (change_to_float_overflow _ E) in Hmtd. discriminate.
    + destruct (cell_overflows (df_YTD_Change row)) eqn:E; [|reflexivity].
      rewrite (change_to_float_overflow _ E) in Hytd. discriminate.
  - intros [H1 H2]. unfold value_metrics.
    destruct (change_to_float_fits _ H1) as [mtd ->].
    destruct (change_to_float_fits _ H2) as [ytd ->].
    cbn. eauto.
Qed.

Lemma first_row_In (ticker : string) :
  In ticker (map df_symbol df) ->
  exists row, first_row df ticker = Ok row /\ In row df /\ df_symbol row = ticker.
Proof.
  intros Hin. apply in_map_iff in Hin. destruct Hin as [r [Hsym Hr]].
  unfold first_row.
  assert (Hf : In r (filter (fun r0 => String.eqb (df_symbol r0) ticker) df)).
  { apply filter_In. split; [exact Hr|]. now apply String.eqb_eq. }
  destruct (filter _ df) as [|row rows] eqn:E; [destruct Hf|].
  exists row. split; [reflexivity|].
  assert (Hrow : In row (filter (fun r0 => String.eqb (df_symbol r0) ticker) df))
    by (rewrite E; now left).
  apply filter_In in Hrow. destruct Hrow as [Hrow Heq].
  split; [exact Hrow | now apply String.eqb_eq].
Qed.




Lemma process_ticker_pages (st st' : run_state) (ticker : string) :
  process_ticker w df output_path rec_key st ticker = Ok st' ->
  pages st' = (pages st ++ page_of w df rec_key ticker)%list.
Proof.
  unfold process_ticker, page_of.
  destruct (try_body w df rec_key ticker) as [[|fig]|e]; intros H.
  - injection H as <-. cbn. now rewrite app_nil_r.
  - injection H as <-. reflexivity.
  - destruct (exn_kind e); try discriminate; injection H as <-; cbn;
      now rewrite app_nil_r.
Qed.

Lemma for_ticker_pages (tickers : list string) (st st' : run_state) :
  for_ticker w df output_path rec_key tickers st = Ok st' ->
  pages st' = (pages st ++ flat_map (page_of w df rec_key) tickers)%list.
Proof.
  revert st. induction tickers as [|t tickers IH]; intros st H; cbn in H.
  - injection H as <-. cbn. now rewrite app_nil_r.
  - destruct (process_ticker w df output_path rec_key st t) as [st1|e] eqn:E;
      cbn in H; [|discriminate].
    rewrite (IH _ H), (process_ticker_pages _ _ _ E).
    cbn. now rewrite app_assoc.
Qed.

Lemma format_1f_error (c : cell) (e : exn) :
  format_1f c = Raise e ->
  exn_kind e = TypeError \/ exn_kind e = ValueError
  \/ exn_kind e = OverflowError.
Proof.
  destruct c as [|f|z|s]; cbn [format_1f]; try discriminate.
  - intros H. injection H as <-. cbn. auto.
  - destruct (int_overflows z); [|discriminate].
    intros H. injection H as <-. cbn. auto.
  - intros H. injection H as <-. cbn. auto.
Qed.

(** A download of a single bar: the [:.1f] labels come first; when both
    can be formatted, the last close is read and [iloc[-2]] raises. *)
Lemma render_one_bar (m : metrics) (ticker : string) (stock_data : list bar) :
  length stock_data = 1%nat ->
  exists e,
    render w m rec_key ticker stock_data = Raise e
    /\ match format_1f (target_lp m), format_1f (target_mean_p m) with
       | Raise e1, _ => e = e1
       | Ok _, Raise e2 => e = e2
       | Ok _, Ok _ =>
           iloc (map (fun b => Fin (Close b)) stock_data) 2 = Raise e
           /\ exn_kind e = IndexError
       end
    /\ (exn_kind e = IndexError \/ exn_kind e = TypeError
        \/ exn_kind e = ValueError \/ exn_kind e = OverflowError).
Proof.
  intros Hlen. destruct stock_data as [|b [|b' bars]]; try discriminate.
  unfold render.
  destruct (format_1f (target_lp m)) as [lp|e1] eqn:E1.
  - destruct (format_1f (target_mean_p m)) as [mp|e2] eqn:E2.
    + cbn. eexists. split; [reflexivity|]. cbn. auto.
    + cbn. exists e2. split; [reflexivity|]. split; [reflexivity|].
      destruct (format_1f_error _ _ E2) as [H | [H | H]]; auto.
  - cbn. exists e1. split; [reflexivity|]. split; [reflexivity|].
    destruct (format_1f_error _ _ E1) as [H | [H | H]]; auto.
Qed.

End ReportFacts.

(* ===================================================================== *)
(** * Value metrics                                                       *)
(* ===================================================================== *)

(** C5, counterexample. A row whose target low price is missing: the
    metric that goes to the chart is the missing value itself. *)
Lemma missing_target_is_not_normalised :
  ~ target_is_normalised quiet_world row_without_target.
Proof.
  intros H. specialize (H _ eq_refl eq_refl). discriminate H.
Qed.

(** The missing target price reaches the figure that is saved. *)
Example missing_target_reaches_the_page :
  match try_body quiet_world [row_without_target] "strong_buy" "AAA" with
  | Ok (Rendered fig) => fig_target_lp fig = NaN /\ fig_mtd_change fig = Fin 0
  | _ => False
  end.
Proof. vm_compute. split; reflexivity. Qed.

(** C5, amended. Of the numeric fundamentals only the month-to-date and
    year-to-date changes are normalised.  Whenever the value metrics of a
    row are read, a change that is missing (None or nan) or whose
    conversion by [float] raises [ValueError] or [TypeError] is 0.0, and
    any other change is the value [float] gives; target low price, target
    mean price and market cap are the cells as stored in the row.  The
    value metrics are read exactly when neither change is an integer too
    large for a float: the [OverflowError] of such a value is not
    caught at lines 79-86. *)
Theorem change_columns_are_normalised (w : world) (row : df_row) :
  (forall m, value_metrics w row = Ok m ->
     target_lp m = df_Target_LP row
     /\ target_mean_p m = df_Target_Mean_P row
     /\ market_cap m = df_Market_Cap row
     /\ (notna (df_MTD_Change row) = false -> mtd_change m = Fin 0)
     /\ (forall e, float_ w (df_MTD_Change row) = Raise e -> mtd_change m = Fin 0)
     /\ (forall v, notna (df_MTD_Change row) = true ->
                   float_ w (df_MTD_Change row) = Ok v -> mtd_change m = v)
     /\ (notna (df_YTD_Change row) = false -> ytd_change m = Fin 0)
     /\ (forall e, float_ w (df_YTD_Change row) = Raise e -> ytd_change m = Fin 0)
     /\ (forall v, notna (df_YTD_Change row) = true ->
                   float_ w (df_YTD_Change row) = Ok v -> ytd_change m = v))
  /\ ((exists m, value_metrics w row = Ok m)
      <-> cell_overflows (df_MTD_Change row) = false
          /\ cell_overflows (df_YTD_Change row) = false)
  /\ (cell_overflows (df_MTD_Change row) = true ->
      value_metrics w row = Raise int_too_large).
Proof.
  split; [|split].
  - intros m Hm.
    destruct (value_metrics_Ok_inv w row m Hm) as [Hlp [Hmp [Hcap [Hmtd Hytd]]]].
    destruct (change_to_float_Ok_cases w _ _ Hmtd) as [M1 [M2 M3]].
    destruct (change_to_float_Ok_cases w _ _ Hytd) as [Y1 [Y2 Y3]].
    repeat split; assumption.
  - apply value_metrics_Ok_iff.
  - intros H. unfold value_metrics.
    now rewrite (change_to_float_overflow w _ H).
Qed.

(** The row without a month-to-date value and with the text ["n/a"] as
    year-to-date value: its metrics are read and both changes are 0.0. *)
Lemma change_columns_witness :
  exists m, value_metrics quiet_world row_without_target = Ok m
            /\ mtd_change m = Fin 0 /\ ytd_change m = Fin 0.
Proof.
  destruct (change_columns_are_normalised quiet_world row_without_target)
    as [Hread [Hiff _]].
  destruct (proj2 Hiff) as [m Hm]; [split; reflexivity|].
  destruct (Hread m Hm) as [_ [_ [_ [Hmtd [_ [_ [_ [Hytd _]]]]]]]].
  exists m. split; [exact Hm|]. split.
  - apply Hmtd. reflexivity.
  - apply (Hytd {| exn_kind := ValueError;
                   exn_str := "could not convert string to float" |}).
    reflexivity.
Defined.

(** An over-large month-to-date value is not normalised: its conversion
    ends the processing of the candidate with an error line. *)
Example overflowing_change_is_an_error :
  process_ticker quiet_world
    [{| df_symbol := "AAA";
        df_Target_LP := CFloat (Fin 150);
        df_Target_Mean_P := CFloat (Fin 160);
        df_Sector := CStr "Tech";
        df_Anlsts := CInt 20;
        df_Rec_Mean := CFloat (Fin (3 # 2));
        df_Market_Cap := CFloat (Fin 50);
        df_MTD_Change := CInt (2 ^ 1024);
        df_YTD_Change := CFloat (Fin 10) |}]
    "report.pdf" "strong_buy" start "AAA"
  = Ok (print "Error processing AAA: int too large to convert to float" start).
Proof. vm_compute. reflexivity. Qed.

(* ===================================================================== *)
(** * Skips, failures and their isolation                                 *)
(* ===================================================================== *)



(** The end-to-end scenario with an empty history for the first of two
    candidates: one page, for the second candidate. *)
Example scenario_empty_history :
  match generate_technical_analysis_pdf no_data_for_AAA (Some two_rows)
          "report.pdf" "strong_buy" with
  | Ok st => map fig_ticker (pages st) = ["BBB"%string]
             /\ printed st = [msg_skipping "AAA"; msg_added "BBB" "report.pdf";
                              "PDF report created: report.pdf"%string]
  | Raise _ => False
  end.
Proof. vm_compute. split; reflexivity. Qed.



(** The end-to-end scenario with two candidates, the first of which
    fails: one page, for the second, and one error line. *)
Example scenario_first_candidate_fails :
  match generate_technical_analysis_pdf download_fails_for_AAA (Some two_rows)
          "report.pdf" "strong_buy" with
  | Ok st => map fig_ticker (pages st) = ["BBB"%string]
             /\ printed st = ["Error processing AAA: connection refused"%string;
                              "Added BBB page to report.pdf"%string;
                              "PDF report created: report.pdf"%string]
  | Raise _ => False
  end.
Proof. vm_compute. split; reflexivity. Qed.


(** In that run the second candidate is still processed and gets its
    page. *)
Example scenario_locked_destination :
  match generate_technical_analysis_pdf locked_for_AAA (Some two_rows)
          "report.pdf" "strong_buy" with
  | Ok st => map fig_ticker (pages st) = ["BBB"%string]
             /\ printed st = [msg_permission "AAA" "report.pdf";
                              msg_full_error permission_denied;
                              msg_added "BBB" "report.pdf";
                              "PDF report created: report.pdf"%string]
  | Raise _ => False
  end.
Proof. vm_compute. split; reflexivity. Qed.



(** C10. A candidate whose download holds exactly one bar.  For a
    ticker whose row is found and whose value metrics are read, so that
    the download is reached: the empty-series check passes and the
    indicators of the one close are computed (both moving averages equal
    the close, the oscillator is [nan]), but rendering raises.  When both
    target prices can be formatted, the last close is read and the
    exception is the [IndexError] of [iloc[-2]] on the close column;
    otherwise it is the error of the first label that cannot be
    formatted.  The generic handler prints the error line, the candidate
    contributes no page, and the loop goes on with the remaining
    candidates. *)
Theorem one_bar_series_yields_no_page (w : world) (df : list df_row)
        (output_path rec_key : string) (st : run_state)
        (ticker : string) (rest : list string) (row : df_row) (m : metrics)
        (stock_data : list bar) :
  first_row df ticker = Ok row ->
  value_metrics w row = Ok m ->
  yf_download w ticker = Ok stock_data ->
  length stock_data = 1%nat ->
  exists e,
    try_body w df rec_key ticker = Raise e
    /\ render w m rec_key ticker stock_data = Raise e
    /\ match format_1f (df_Target_LP row), format_1f (df_Target_Mean_P row) with
       | Raise e1, _ => e = e1
       | Ok _, Raise e2 => e = e2
       | Ok _, Ok _ =>
           iloc (map (fun b => Fin (Close b)) stock_data) 2 = Raise e
           /\ exn_kind e = IndexError
       end
    /\ (exn_kind e = IndexError \/ exn_kind e = TypeError
        \/ exn_kind e = ValueError \/ exn_kind e = OverflowError)
    /\ process_ticker w df output_path rec_key st ticker
       = Ok (print (msg_error ticker e) st)
    /\ pages (print (msg_error ticker e) st) = pages st
    /\ page_of w df rec_key ticker = []
    /\ for_ticker w df output_path rec_key (ticker :: rest) st
       = for_ticker w df output_path rec_key rest (print (msg_error ticker e) st)
    /\ (exists c, map Close stock_data = [c]
                  /\ iloc (map (fun b => Fin (Close b)) stock_data) 1 = Ok (Fin c)
                  /\ feq (nth 0 (MA_50 (map (fun b => Fin (Close b)) stock_data)) NaN)
                         (Fin c)
                  /\ feq (nth 0 (MA_200 (map (fun b => Fin (Close b)) stock_data)) NaN)
                         (Fin c))
    /\ length (MA_50 (map (fun b => Fin (Close b)) stock_data)) = 1%nat
    /\ length (MA_200 (map (fun b => Fin (Close b)) stock_data)) = 1%nat
    /\ RSI (map (fun b => Fin (Close b)) stock_data) = [NaN].
Proof.
  intros Hrow Hm Hdl Hlen.
  destruct (value_metrics_Ok_inv w row m Hm) as [Hlp [Hmp _]].
  destruct (render_one_bar w rec_key m ticker stock_data Hlen)
    as [e [Hrender [Hwhich Hkind]]].
  rewrite Hlp, Hmp in Hwhich.
  assert (Hbody : try_body w df rec_key ticker = Raise e).
  { unfold try_body. rewrite Hrow. cbn. rewrite Hm. cbn. rewrite Hdl. cbn.
    destruct stock_data as [|b bars]; [discriminate|]. now rewrite Hrender. }
  assert (Hstep : process_ticker w df output_path rec_key st ticker
                  = Ok (print (msg_error ticker e) st)).
  { unfold process_ticker. rewrite Hbody.
    destruct Hkind as [-> | [-> | [-> | ->]]]; reflexivity. }
  exists e.
  split; [exact Hbody|]. split; [exact Hrender|]. split; [exact Hwhich|].
  split; [exact Hkind|]. split; [exact Hstep|]. split; [reflexivity|].
  split; [unfold page_of; now rewrite Hbody|].
  split; [cbn; now rewrite Hstep|].
  destruct stock_data as [|b [|b' bars]]; try discriminate.
  split.
  - exists (Close b). split; [reflexivity|]. split; [reflexivity|].
    split; cbn; field.
  - repeat split.
Qed.

Lemma one_bar_series_witness :
  exists e,
    try_body one_bar_for_AAA two_rows "strong_buy" "AAA" = Raise e
    /\ iloc (map (fun b => Fin (Close b)) [bar_at 1 100]) 2 = Raise e
    /\ process_ticker one_bar_for_AAA two_rows "report.pdf" "strong_buy" start "AAA"
       = Ok (print (msg_error "AAA" e) start).
Proof.
  destruct (one_bar_series_yields_no_page one_bar_for_AAA two_rows "report.pdf"
              "strong_buy" start "AAA" [] (plain_row "AAA")
              {| target_lp := CFloat (Fin 150);
                 target_mean_p := CFloat (Fin 160);
                 sector := CStr "Tech";
                 anlsts := CInt 20;
                 rec_mean := CFloat (Fin (3 # 2));
                 market_cap := CFloat (Fin 50);
                 mtd_change := Fin (5 # 2);
                 ytd_change := Fin 10 |}
              [bar_at 1 100])
    as [e [Hbody [_ [Hwhich [_ [Hstep _]]]]]]; try reflexivity.
  exists e. split; [exact Hbody|]. split; [|exact Hstep].
  exact (proj1 Hwhich).
Defined.

(** One bar for the first of two candidates: the error line of the
    [IndexError], then the page of the second candidate. *)
Example scenario_one_bar :
  match generate_technical_analysis_pdf one_bar_for_AAA (Some two_rows)
          "report.pdf" "strong_buy" with
  | Ok st => map fig_ticker (pages st) = ["BBB"%string]
             /\ printed st
                = ["Error processing AAA: single positional indexer is out-of-bounds"%string;
                   "Added BBB page to report.pdf"%string;
                   "PDF report created: report.pdf"%string]
  | Raise _ => False
  end.
Proof. vm_compute. split; reflexivity. Qed.

(* ===================================================================== *)
(** * Properties of the key escaping                                      *)
(* ===================================================================== *)

Section SubseqFacts.

Context {A : Type}.

Lemma subseq_length (xs ys : list A) :
  subseq xs ys -> (length xs <= length ys)%nat.
Proof. induction 1; simpl; lia. Qed.

End SubseqFacts.

Section QuoteFacts.

Local Open Scope string_scope.

Lemma replace_quote_length (s : string) :
  String.length (replace_quote s) = (String.length s + count_quotes s)%nat.
Proof.
  induction s as [|c s IH]; [reflexivity|].
  cbn [replace_quote count_quotes].
  destruct (Ascii.eqb c "'"); cbn [String.length]; rewrite IH; lia.
Qed.

Lemma replace_quote_count (s : string) :
  count_quotes (replace_quote s) = (2 * count_quotes s)%nat.
Proof.
  induction s as [|c s IH]; [reflexivity|].
  cbn [replace_quote count_quotes].
  destruct (Ascii.eqb c "'") eqn:E; cbn [count_quotes].
  - cbn. rewrite IH. lia.
  - rewrite E, IH. lia.
Qed.

Lemma replace_quote_no_quote (s : string) :
  count_quotes s = 0%nat -> replace_quote s = s.
Proof.
  induction s as [|c s IH]; [reflexivity|].
  cbn [replace_quote count_quotes].
  destruct (Ascii.eqb c "'"); [discriminate|].
  cbn. intros H. now rewrite IH.
Qed.

End QuoteFacts.

(** X4. The quote escaping of the recommendation key is injective:
    two different keys never have the same escaped form. *)
Theorem replace_quote_injective (s1 s2 : string) :
  replace_quote s1 = replace_quote s2 -> s1 = s2.
Proof.
  revert s2. induction s1 as [|c s1 IH]; intros [|d s2]; cbn [replace_quote].
  - reflexivity.
  - destruct (Ascii.eqb d "'"); discriminate.
  - destruct (Ascii.eqb c "'"); discriminate.
  - destruct (Ascii.eqb c "'") eqn:Ec; destruct (Ascii.eqb d "'") eqn:Ed;
      intros H.
    + apply Ascii.eqb_eq in Ec, Ed. subst c d.
      injection H as H. f_equal. now apply IH.
    + apply Ascii.eqb_eq in Ec. injection H as H1 H2. subst d.
      rewrite Ascii.eqb_refl in Ed. discriminate.
    + apply Ascii.eqb_eq in Ed. injection H as H1 H2. subst c.
      rewrite Ascii.eqb_refl in Ec. discriminate.
    + injection H as H1 H2. subst d. f_equal. now apply IH.
Qed.

Lemma replace_quote_injective_witness :
  ("it's" = "it's")%string.
Proof.
  apply (replace_quote_injective "it's" "it's"). reflexivity.
Defined.

(** X5. Escaping doubles every quote and touches nothing else: the
    escaped key has twice as many quotes, is longer by the number of
    quotes of the key, and equals the key exactly when the key has no
    quote. *)
Theorem replace_quote_doubles_quotes (s : string) :
  count_quotes (replace_quote s) = (2 * count_quotes s)%nat
  /\ String.length (replace_quote s) = (String.length s + count_quotes s)%nat
  /\ (replace_quote s = s <-> count_quotes s = 0%nat).
Proof.
  split; [apply replace_quote_count|].
  split; [apply replace_quote_length|].
  split.
  - intros H. pose proof (replace_quote_length s) as Hlen.
    rewrite H in Hlen. lia.
  - apply replace_quote_no_quote.
Qed.

(* ===================================================================== *)
(** * Further properties of the indicators                                *)
(* ===================================================================== *)

Section IndicatorFacts.

Local Open Scope Q_scope.

Lemma inject_succ (n : nat) :
  inject_Z (Z.of_nat (S n)) == inject_Z (Z.of_nat n) + 1.
Proof. rewrite Nat2Z.inj_succ. unfold Z.succ. now rewrite inject_Z_plus. Qed.

Lemma sum_from_bounds (close : list Q) (a b : Q) (n lo : nat) :
  (forall k, (lo <= k < lo + n)%nat -> a <= nth k close 0 <= b) ->
  inject_Z (Z.of_nat n) * a <= sum_from close lo n
  /\ sum_from close lo n <= inject_Z (Z.of_nat n) * b.
Proof.
  revert lo. induction n as [|n IH]; intros lo Hall.
  - cbn [sum_from]. change (inject_Z (Z.of_nat 0)) with 0. split; lra.
  - cbn [sum_from]. rewrite inject_succ.
    destruct (IH (S lo)) as [IH1 IH2]; [intros k Hk; apply Hall; lia|].
    destruct (Hall lo) as [H1 H2]; [lia|].
    split; nra.
Qed.

Lemma rolling_mean_bounds (w : nat) (close : list Q) (i : nat) (a b : Q) :
  (0 < w)%nat -> (i < length close)%nat ->
  (forall k, (i - (w - 1) <= k <= i)%nat -> a <= nth k close 0 <= b) ->
  exists q, nth i (rolling_mean w 1 (map Fin close)) NaN = Fin q /\ a <= q <= b.
Proof.
  intros Hw Hi Hall.
  destruct (rolling_mean_shrinking w close i Hw Hi) as [q [Hq Hmean]].
  exists q. split; [exact Hq|]. rewrite Hmean. unfold mean_over.
  set (n := (S i - (i - (w - 1)))%nat).
  assert (Hn : (0 < n)%nat) by (unfold n; lia).
  assert (Hpos : 0 < inject_Z (Z.of_nat n)).
  { unfold Qlt, inject_Z. simpl. lia. }
  destruct (sum_from_bounds close a b n (i - (w - 1))) as [H1 H2].
  { intros k Hk. apply Hall. unfold n in Hk. lia. }
  split.
  - apply Qle_shift_div_l; [exact Hpos | lra].
  - apply Qle_shift_div_r; [exact Hpos | lra].
Qed.

Lemma window_early {A : Type} (w1 w2 : nat) (xs : list A) (i : nat) :
  (S i <= w1)%nat -> (S i <= w2)%nat -> window w1 xs i = window w2 xs i.
Proof.
  intros H1 H2. unfold window.
  assert (Hlen : (length (rev (firstn (S i) xs)) <= S i)%nat)
    by (rewrite length_rev, length_firstn; lia).
  rewrite (firstn_all2 (n := w1)) by lia.
  rewrite (firstn_all2 (n := w2)) by lia.
  reflexivity.
Qed.

Lemma up_minus_down (d : Q) : up_move d - down_move d == d.
Proof.
  unfold up_move, down_move.
  destruct (d ?= 0) eqn:E1; destruct (0 ?= d) eqn:E2; cbv iota;
    repeat match goal with
           | H : (_ ?= _) = Eq |- _ => apply Qeq_alt in H
           | H : (_ ?= _) = Lt |- _ => apply Qlt_alt in H
           | H : (_ ?= _) = Gt |- _ => apply Qgt_alt in H
           end; lra.
Qed.

Lemma Qsum_up_minus_down (l : list Q) :
  Qsum (map up_move l) - Qsum (map down_move l) == Qsum l.
Proof.
  unfold Qsum. induction l as [|d l IH]; cbn [map fold_right]; [ring|].
  pose proof (up_minus_down d). lra.
Qed.

Lemma ups_moves (cs : list Q) : ups cs = map up_move (moves cs).
Proof. destruct cs; reflexivity. Qed.

Lemma downs_moves (cs : list Q) : downs cs = map down_move (moves cs).
Proof. destruct cs; reflexivity. Qed.

Lemma moves_length (cs : list Q) : length (moves cs) = length cs.
Proof. destruct cs; simpl; [reflexivity|]. now rewrite qdiff_from_length. Qed.

Lemma nth_moves (cs : list Q) (k : nat) :
  (S k < length cs)%nat ->
  nth (S k) (moves cs) 0 = nth (S k) cs 0 + - nth k cs 0.
Proof.
  destruct cs as [|c cs]; simpl; intros Hk; [lia|].
  rewrite nth_qdiff_from by lia. reflexivity.
Qed.

(** The moves between two indices add up to the net move. *)
Lemma sum_from_moves (cs : list Q) (n lo : nat) :
  (lo + n < length cs)%nat ->
  sum_from (moves cs) (S lo) n == nth (lo + n) cs 0 - nth lo cs 0.
Proof.
  revert lo. induction n as [|n IH]; intros lo Hlen.
  - cbn [sum_from]. rewrite Nat.add_0_r. ring.
  - cbn [sum_from]. rewrite nth_moves by lia.
    rewrite (IH (S lo)) by lia.
    replace (S lo + n)%nat with (lo + S n)%nat by lia. ring.
Qed.

End IndicatorFacts.

(** X6. A moving average never leaves the range of the closes it
    averages: if every close of the last 200 bars up to an index lies
    between [a] and [b], so do the 50- and the 200-period averages at
    that index. *)
Theorem moving_averages_within_range (close : list Q) (i : nat) (a b : Q) :
  (i < length close)%nat ->
  (forall k, (i - 199 <= k <= i)%nat -> (a <= nth k close 0 <= b)%Q) ->
  exists q50 q200,
    nth i (MA_50 (map Fin close)) NaN = Fin q50
    /\ nth i (MA_200 (map Fin close)) NaN = Fin q200
    /\ (a <= q50 <= b)%Q /\ (a <= q200 <= b)%Q.
Proof.
  intros Hi Hall.
  destruct (rolling_mean_bounds 50 close i a b) as [q50 [H50 B50]];
    [lia | exact Hi | intros k Hk; apply Hall; lia |].
  destruct (rolling_mean_bounds 200 close i a b) as [q200 [H200 B200]];
    [lia | exact Hi | intros k Hk; apply Hall; lia |].
  exists q50, q200. unfold MA_50, MA_200. auto.
Qed.

(** Two closes, 100 and 101: both averages at index 1 lie in [100, 101]. *)
Lemma moving_averages_within_range_witness :
  exists q50 q200,
    nth 1 (MA_50 (map Fin (rising_closes 2))) NaN = Fin q50
    /\ nth 1 (MA_200 (map Fin (rising_closes 2))) NaN = Fin q200
    /\ (100 <= q50 <= 101)%Q /\ (100 <= q200 <= 101)%Q.
Proof.
  apply (moving_averages_within_range (rising_closes 2) 1 100 101).
  - simpl; lia.
  - intros k Hk.
    assert (Hc : (k = 0 \/ k = 1)%nat) by lia.
    destruct Hc as [-> | ->]; split; vm_compute; discriminate.
Defined.

(** X7. On the first 50 bars the two moving averages coincide: both
    average all closes seen so far. *)
Theorem moving_averages_agree_early (close : series) (i : nat) :
  (i < 50)%nat -> nth i (MA_50 close) NaN = nth i (MA_200 close) NaN.
Proof.
  intros Hi. unfold MA_50, MA_200.
  destruct (Nat.lt_ge_cases i (length close)) as [Hlt | Hge].
  - rewrite !rolling_mean_nth by exact Hlt.
    rewrite (window_early 50 200 close i) by lia. reflexivity.
  - rewrite !nth_overflow; [reflexivity | |]; now rewrite rolling_mean_length.
Qed.

Lemma moving_averages_agree_early_witness :
  nth 19 (MA_50 (map Fin (rising_closes 20))) NaN
  = nth 19 (MA_200 (map Fin (rising_closes 20))) NaN.
Proof.
  apply (moving_averages_agree_early (map Fin (rising_closes 20)) 19). lia.
Defined.

(** X8. Where the window is full and the average loss is positive, the
    oscillator is [100 * gain / (gain + loss)] for the average gain and
    loss at that index. *)
Theorem oscillator_closed_form (cs : list Q) (i : nat) (g l : Q) :
  (13 <= i < length cs)%nat ->
  nth i (gain (map Fin cs)) NaN = Fin g ->
  nth i (loss (map Fin cs)) NaN = Fin l ->
  (0 < l)%Q ->
  exists q, nth i (RSI (map Fin cs)) NaN = Fin q
            /\ (q == 100 * g / (g + l))%Q.
Proof.
  intros Hi Hg Hl Hpos.
  assert (Hg0 : (0 <= g)%Q).
  { rewrite gain_full in Hg by exact Hi. injection Hg as <-.
    apply window_ups_nonneg. }
  rewrite RSI_nth, Hg, Hl.
  destruct (rsi_ratio g l Hg0 Hpos) as [q [Hq [Hv _]]].
  exists q. split; [exact Hq|]. rewrite Hv. field. split; lra.
Qed.

(** Rising closes with one fall at the end: gain 13/14, loss 1/14. *)
Lemma oscillator_closed_form_witness :
  exists q, nth 14 (RSI (map Fin (rising_closes 14 ++ [inject_Z 112]))) NaN = Fin q
            /\ (q == 100 * (13 # 14) / ((13 # 14) + (1 # 14)))%Q.
Proof.
  apply (oscillator_closed_form (rising_closes 14 ++ [inject_Z 112]) 14
           (13 # 14) (1 # 14)).
  - simpl; lia.
  - vm_compute. reflexivity.
  - vm_compute. reflexivity.
  - reflexivity.
Defined.

(** X9. Where the window is full, no close in it is above its
    predecessor and at least one is below, the oscillator is 0. *)
Theorem oscillator_without_gains (cs : list Q) (i : nat) :
  (13 <= i < length cs)%nat ->
  (forall k, (i - 14 <= k < i)%nat -> (nth (S k) cs 0 <= nth k cs 0)%Q) ->
  (exists k, (i - 14 <= k < i)%nat /\ (nth (S k) cs 0 < nth k cs 0)%Q) ->
  feq (nth i (RSI (map Fin cs)) NaN) (Fin 0).
Proof.
  intros Hi Hmono [k [Hk Hlt]].
  rewrite RSI_nth, gain_full, loss_full by exact Hi.
  assert (Hg0 : (Qsum (window 14 (ups cs) i) / inject_Z (Z.of_nat 14) == 0)%Q).
  { apply fourteenth_zero, window_ups_zero; [lia | exact Hmono]. }
  pose proof (fourteenth_pos _ (window_downs_pos cs i k (proj2 Hi) Hk Hlt)) as Hl.
  destruct (rsi_ratio _ _ (window_ups_nonneg cs i) Hl) as [q [-> [Hv _]]].
  cbn [feq]. rewrite Hv, Hg0.
  set (l := (Qsum (window 14 (downs cs) i) / inject_Z (Z.of_nat 14))%Q) in *.
  field. lra.
Qed.

(** Fourteen closes falling by one a day from 100. *)
Lemma oscillator_without_gains_witness :
  feq (nth 13 (RSI (map Fin (map (fun c => (200 - c)%Q) (rising_closes 14)))) NaN)
      (Fin 0).
Proof.
  apply (oscillator_without_gains (map (fun c => (200 - c)%Q) (rising_closes 14)) 13).
  - simpl; lia.
  - intros k Hk.
    assert (Hc : (k = 0 \/ k = 1 \/ k = 2 \/ k = 3 \/ k = 4 \/ k = 5 \/ k = 6
                  \/ k = 7 \/ k = 8 \/ k = 9 \/ k = 10 \/ k = 11 \/ k = 12)%nat)
      by lia.
    repeat (destruct Hc as [-> | Hc]; [vm_compute; discriminate|]).
    subst k. vm_compute; discriminate.
  - exists 0%nat. split; [lia | reflexivity].
Defined.

(** X10. From index 14 on, the average gain minus the average loss is
    the net move of the close over the last 14 days, divided by 14. *)
Theorem gain_minus_loss_is_net_move (cs : list Q) (i : nat) :
  (14 <= i < length cs)%nat ->
  exists g l,
    nth i (gain (map Fin cs)) NaN = Fin g
    /\ nth i (loss (map Fin cs)) NaN = Fin l
    /\ (g - l == (nth i cs 0 - nth (i - 14) cs 0) / 14)%Q.
Proof.
  intros Hi.
  rewrite gain_full, loss_full by lia.
  eexists. eexists. split; [reflexivity|]. split; [reflexivity|].
  rewrite ups_moves, downs_moves, !window_map.
  pose proof (Qsum_up_minus_down (window 14 (moves cs) i)) as Hsum.
  rewrite Qsum_window in Hsum by (rewrite moves_length; lia).
  replace (S i - 14)%nat with (S (i - 14)) in Hsum by lia.
  replace (Nat.min 14 (S i)) with 14%nat in Hsum by lia.
  rewrite sum_from_moves in Hsum by lia.
  replace (i - 14 + 14)%nat with i in Hsum by lia.
  change (inject_Z (Z.of_nat 14)) with 14%Q.
  rewrite <- Hsum. field.
Qed.

Lemma gain_minus_loss_witness :
  exists g l,
    nth 19 (gain (map Fin (rising_closes 20))) NaN = Fin g
    /\ nth 19 (loss (map Fin (rising_closes 20))) NaN = Fin l
    /\ (g - l == (nth 19 (rising_closes 20) 0 - nth (19 - 14) (rising_closes 20) 0) / 14)%Q.
Proof.
  apply (gain_minus_loss_is_net_move (rising_closes 20) 19). simpl; lia.
Defined.

(* ===================================================================== *)
(** * Further properties of the report                                    *)
(* ===================================================================== *)

Section RenderFacts.

Local Open Scope string_scope.

Variable w : world.

Lemma bind_Ok_inv {A B : Type} (m : result A) (k : A -> result B) (b : B) :
  bind m k = Ok b -> exists a, m = Ok a /\ k a = Ok b.
Proof. destruct m as [a|e]; cbn; [eauto | discriminate]. Qed.

Lemma raise_opt_Ok_inv (o : option exn) (u : unit) :
  raise_opt o = Ok u -> o = None.
Proof. destruct o; [discriminate | reflexivity]. Qed.

Lemma iloc_Ok_length (s : series) (k : nat) (x : pyfloat) :
  iloc s k = Ok x -> (k <= length s)%nat.
Proof.
  unfold iloc, iloc_neg.
  destruct (Nat.leb_spec k (length s)); [intros _; assumption|].
  cbn. discriminate.
Qed.




Lemma RSI_length (close : series) : length (RSI close) = length close.
Proof.
  unfold RSI, rs. rewrite length_map, map2_length, gain_length; [reflexivity|].
  now rewrite gain_length, loss_length.
Qed.

(** What a figure that [render] returns looks like. *)
Lemma render_Ok_inv (m : metrics) (rec_key ticker : string)
      (stock_data : list bar) (fig : figure) :
  render w m rec_key ticker stock_data = Ok fig ->
  fig_ticker fig = ticker
  /\ fig_rec_key fig = rec_key
  /\ fig_ohlc fig = stock_data
  /\ (2 <= length stock_data)%nat
  /\ fig_50_MA fig = MA_50 (map (fun b => Fin (Close b)) stock_data)
  /\ fig_200_MA fig = MA_200 (map (fun b => Fin (Close b)) stock_data)
  /\ fig_RSI fig = RSI (map (fun b => Fin (Close b)) stock_data)
  /\ pdf_savefig w fig = None
  /\ format_1f (target_lp m) = Ok (fig_target_lp fig)
  /\ format_1f (target_mean_p m) = Ok (fig_target_mean_p fig)
  /\ fig_sector fig = sector m
  /\ fig_anlsts fig = anlsts m
  /\ fig_rec_mean fig = rec_mean m
  /\ fig_market_cap fig = market_cap m
  /\ fig_mtd_change fig = mtd_change m
  /\ fig_ytd_change fig = ytd_change m.
Proof.
  unfold render. intros H.
  apply bind_Ok_inv in H. destruct H as [lp [Hlp H]].
  apply bind_Ok_inv in H. destruct H as [mp [Hmp H]].
  apply bind_Ok_inv in H. destruct H as [last [Hlast H]].
  apply bind_Ok_inv in H. destruct H as [prev [Hprev H]].
  apply bind_Ok_inv in H. destruct H as [m50 [H50 H]].
  apply bind_Ok_inv in H. destruct H as [m200 [H200 H]].
  apply bind_Ok_inv in H. destruct H as [r [Hr H]].
  apply bind_Ok_inv in H. destruct H as [u [Hsave H]].
  apply raise_opt_Ok_inv in Hsave.
  injection H as <-. cbn.
  apply iloc_Ok_length in Hprev. rewrite length_map in Hprev.
  repeat split; auto.
Qed.

Lemma try_body_Rendered_inv (df : list df_row) (rec_key ticker : string)
      (fig : figure) :
  try_body w df rec_key ticker = Ok (Rendered fig) ->
  exists row m,
    first_row df ticker = Ok row
    /\ value_metrics w row = Ok m
    /\ yf_download w ticker = Ok (fig_ohlc fig)
    /\ render w m rec_key ticker (fig_ohlc fig) = Ok fig.
Proof.
  unfold try_body. intros H.
  apply bind_Ok_inv in H. destruct H as [row [Hrow H]].
  apply bind_Ok_inv in H. destruct H as [m [Hm H]].
  apply bind_Ok_inv in H. destruct H as [bars [Hdl H]].
  destruct bars as [|b bars]; [discriminate|].
  apply bind_Ok_inv in H. destruct H as [fig' [Hrender H]].
  injection H as <-.
  pose proof (render_Ok_inv _ _ _ _ _ Hrender) as [_ [_ [Hohlc _]]].
  exists row, m. rewrite Hohlc. auto.
Qed.

Lemma first_row_split (df : list df_row) (ticker : string) (row : df_row) :
  first_row df ticker = Ok row ->
  exists pre post,
    df = (pre ++ row :: post)%list
    /\ df_symbol row = ticker
    /\ forall r, In r pre -> df_symbol r <> ticker.
Proof.
  unfold first_row. induction df as [|r df IH]; cbn; [discriminate|].
  destruct (String.eqb (df_symbol r) ticker) eqn:E.
  - intros H. injection H as <-. exists [], df.
    split; [reflexivity|]. split; [now apply String.eqb_eq|].
    intros r' [].
  - intros H. destruct (IH H) as [pre [post [-> [Hsym Hpre]]]].
    exists (r :: pre), post. split; [reflexivity|]. split; [exact Hsym|].
    intros r' [<- | Hin]; [now apply String.eqb_neq | now apply Hpre].
Qed.

Lemma page_of_In (df : list df_row) (rec_key : string) (tickers : list string)
      (fig : figure) :
  In fig (flat_map (page_of w df rec_key) tickers) ->
  exists ticker, In ticker tickers
                 /\ try_body w df rec_key ticker = Ok (Rendered fig).
Proof.
  intros Hin. apply in_flat_map in Hin. destruct Hin as [t [Ht Hfig]].
  exists t. split; [exact Ht|]. unfold page_of in Hfig.
  destruct (try_body w df rec_key t) as [[|fig']|e]; try destruct Hfig.
  - now subst.
  - destruct H.
Qed.

Lemma page_of_tickers (df : list df_row) (rec_key : string)
      (tickers : list string) :
  subseq (map fig_ticker (flat_map (page_of w df rec_key) tickers)) tickers.
Proof.
  induction tickers as [|t tickers IH]; cbn; [constructor|].
  unfold page_of at 1.
  destruct (try_body w df rec_key t) as [[|fig]|e] eqn:E; cbn;
    try (apply subseq_skip; exact IH).
  destruct (try_body_Rendered_inv _ _ _ _ E) as [row [m [_ [_ [_ Hr]]]]].
  apply render_Ok_inv in Hr. destruct Hr as [-> _].
  apply subseq_keep. exact IH.
Qed.

Lemma generate_pages (rows : list df_row) (output_path rec_key : string)
      (st : run_state) :
  generate_technical_analysis_pdf w (Some rows) output_path rec_key = Ok st ->
  pages st = flat_map (page_of w rows rec_key) (map df_symbol rows).
Proof.
  unfold generate_technical_analysis_pdf.
  destruct rows as [|row rows]; [intros H; now injection H as <-|].
  intros H.
  apply bind_Ok_inv in H. destruct H as [u [_ H]].
  apply bind_Ok_inv in H. destruct H as [st1 [Hloop H]].
  injection H as <-. cbn [pages print].
  now rewrite (for_ticker_pages _ _ _ _ _ _ _ Hloop).
Qed.

End RenderFacts.

Section LoopFacts.

Local Open Scope string_scope.

Variable w : world.
Variable df : list df_row.
Variables output_path rec_key : string.



End LoopFacts.

(** X12. A run over a non-empty table completes whenever the output
    file opens and no candidate raises outside the [Exception] hierarchy:
    its pages are the figures of the successful candidates in table
    order and its last printed line announces the report, also when no
    candidate produced a page. *)
Theorem run_completes (w : world) (row : df_row) (rows : list df_row)
        (output_path rec_key : string) :
  PdfPages w output_path = None ->
  (forall ticker e,
      In ticker (map df_symbol (row :: rows)) ->
      try_body w (row :: rows) rec_key ticker = Raise e ->
      is_Exception e = true) ->
  exists st,
    generate_technical_analysis_pdf w (Some (row :: rows)) output_path rec_key
    = Ok st
    /\ pages st = flat_map (page_of w (row :: rows) rec_key)
                    (map df_symbol (row :: rows))
    /\ last (printed st) EmptyString
       = ("PDF report created: " ++ output_path)%string.
Proof.
  intros Hopen Hsafe.
  assert (Hloop : forall tickers st,
             (forall t, In t tickers -> In t (map df_symbol (row :: rows))) ->
             exists st', for_ticker w (row :: rows) output_path rec_key tickers st
                         = Ok st').
  { induction tickers as [|t tickers IH]; intros st Hsub; cbn [for_ticker].
    - eauto.
    - assert (Hstep : exists st1,
                 process_ticker w (row :: rows) output_path rec_key st t = Ok st1).
      { unfold process_ticker.
        destruct (try_body w (row :: rows) rec_key t) as [[|fig]|e] eqn:E; eauto.
        pose proof (Hsafe t e (Hsub t (or_introl eq_refl)) E) as Hexn.
        unfold is_Exception in Hexn.
        destruct (exn_kind e); eauto. discriminate. }
      destruct Hstep as [st1 ->]. cbn [bind].
      apply IH. intros t' Ht'. apply Hsub. now right. }
  destruct (Hloop (map df_symbol (row :: rows)) start (fun _ H => H)) as [st1 H1].
  exists (print ("PDF report created: " ++ output_path)%string st1).
  assert (Hgen : generate_technical_analysis_pdf w (Some (row :: rows))
                   output_path rec_key
                 = Ok (print ("PDF report created: " ++ output_path)%string st1)).
  { unfold generate_technical_analysis_pdf. rewrite Hopen. cbn [raise_opt bind].
    now rewrite H1. }
  split; [exact Hgen|]. split.
  - now apply (generate_pages w _ output_path).
  - cbn [print printed]. apply last_last.
Qed.

(** Every download fails: the run still completes, without a page. *)
Lemma run_completes_witness :
  exists st,
    generate_technical_analysis_pdf
      (example_world (fun _ => Raise provider_down) (fun _ => None))
      (Some (plain_row "AAA" :: [plain_row "BBB"])) "report.pdf" "strong_buy"
    = Ok st
    /\ pages st = []
    /\ last (printed st) EmptyString = "PDF report created: report.pdf"%string.
Proof.
  destruct (run_completes
              (example_world (fun _ => Raise provider_down) (fun _ => None))
              (plain_row "AAA") [plain_row "BBB"] "report.pdf" "strong_buy")
    as [st [Hrun [Hpages Hlast]]].
  - reflexivity.
  - intros ticker e Hin Hbody. simpl in Hin.
    destruct Hin as [<- | [<- | []]]; vm_compute in Hbody;
      injection Hbody as <-; reflexivity.
  - exists st. split; [exact Hrun|]. split; [|exact Hlast].
    rewrite Hpages. reflexivity.
Defined.



(** X14. A report holds at most one page per candidate, in table order:
    the tickers of the pages are the symbols of the table with some left
    out. *)
Theorem pages_follow_table_order (w : world) (rows : list df_row)
        (output_path rec_key : string) (st : run_state) :
  generate_technical_analysis_pdf w (Some rows) output_path rec_key = Ok st ->
  subseq (map fig_ticker (pages st)) (map df_symbol rows)
  /\ (length (pages st) <= length rows)%nat.
Proof.
  intros H. rewrite (generate_pages _ _ _ _ _ H).
  pose proof (page_of_tickers w rows rec_key (map df_symbol rows)) as Hsub.
  split; [exact Hsub|].
  apply subseq_length in Hsub. now rewrite !length_map in Hsub.
Qed.

Lemma pages_follow_table_order_witness :
  subseq (map fig_ticker (pages report_without_AAA)) (map df_symbol two_rows).
Proof.
  apply (pages_follow_table_order no_data_for_AAA two_rows "report.pdf"
           "strong_buy"
           report_without_AAA).
  vm_compute. reflexivity.
Defined.

(** X15. Every page of a report belongs to a symbol of the table, shows
    the bars that were downloaded for that symbol, at least two of them,
    carries the requested recommendation key, and its three indicator
    columns have one entry per bar. *)
Theorem pages_are_well_formed (w : world) (rows : list df_row)
        (output_path rec_key : string) (st : run_state) (fig : figure) :
  generate_technical_analysis_pdf w (Some rows) output_path rec_key = Ok st ->
  In fig (pages st) ->
  In (fig_ticker fig) (map df_symbol rows)
  /\ fig_rec_key fig = rec_key
  /\ yf_download w (fig_ticker fig) = Ok (fig_ohlc fig)
  /\ (2 <= length (fig_ohlc fig))%nat
  /\ length (fig_50_MA fig) = length (fig_ohlc fig)
  /\ length (fig_200_MA fig) = length (fig_ohlc fig)
  /\ length (fig_RSI fig) = length (fig_ohlc fig)
  /\ pdf_savefig w fig = None.
Proof.
  intros Hrun Hin. rewrite (generate_pages _ _ _ _ _ Hrun) in Hin.
  destruct (page_of_In _ _ _ _ _ Hin) as [t [Ht Hbody]].
  destruct (try_body_Rendered_inv _ _ _ _ _ Hbody) as [row [m [_ [_ [Hdl Hr]]]]].
  pose proof (render_Ok_inv _ _ _ _ _ _ Hr)
    as [Htick [Hkey [_ [Hlen [H50 [H200 [Hrsi [Hsave _]]]]]]]].
  rewrite Htick, H50, H200, Hrsi.
  unfold MA_50, MA_200. rewrite !rolling_mean_length, RSI_length, !length_map.
  repeat split; auto.
Qed.

Lemma pages_are_well_formed_witness :
  Forall (fun fig => (2 <= length (fig_ohlc fig))%nat) (pages report_without_AAA).
Proof.
  apply Forall_forall. intros fig Hin.
  apply (pages_are_well_formed no_data_for_AAA two_rows "report.pdf"
           "strong_buy" report_without_AAA fig).
  - vm_compute. reflexivity.
  - exact Hin.
Defined.

(** X16. The fundamentals on a page are those of the first table row
    with the page's symbol: when a symbol occurs in several rows, the
    later rows are never used.  The two target prices on the page are the
    formatted cells of that row, the two changes its converted cells. *)
Theorem page_uses_first_matching_row (w : world) (df : list df_row)
        (rec_key ticker : string) (fig : figure) :
  try_body w df rec_key ticker = Ok (Rendered fig) ->
  exists pre row post,
    df = pre ++ row :: post
    /\ df_symbol row = ticker
    /\ (forall r, In r pre -> df_symbol r <> ticker)
    /\ fig_sector fig = df_Sector row
    /\ fig_anlsts fig = df_Anlsts row
    /\ fig_rec_mean fig = df_Rec_Mean row
    /\ fig_market_cap fig = df_Market_Cap row
    /\ format_1f (df_Target_LP row) = Ok (fig_target_lp fig)
    /\ format_1f (df_Target_Mean_P row) = Ok (fig_target_mean_p fig)
    /\ change_to_float w (df_MTD_Change row) = Ok (fig_mtd_change fig)
    /\ change_to_float w (df_YTD_Change row) = Ok (fig_ytd_change fig).
Proof.
  intros Hbody.
  destruct (try_body_Rendered_inv _ _ _ _ _ Hbody) as [row [m [Hrow [Hm [_ Hr]]]]].
  destruct (first_row_split _ _ _ Hrow) as [pre [post [Hdf [Hsym Hpre]]]].
  pose proof (render_Ok_inv _ _ _ _ _ _ Hr)
    as [_ [_ [_ [_ [_ [_ [_ [_ [Hlp [Hmp [Hsec [Han [Hrm [Hcap [Hmtd Hytd]]]]]]]]]]]]]]].
  unfold value_metrics in Hm.
  apply bind_Ok_inv in Hm. destruct Hm as [mtd [Emtd Hm]].
  apply bind_Ok_inv in Hm. destruct Hm as [ytd [Eytd Hm]].
  injection Hm as <-. cbn in *.
  exists pre, row, post.
  rewrite Hsec, Han, Hrm, Hcap, Hmtd, Hytd.
  repeat split; auto.
Qed.

(** Two rows for [AAA] with different sectors: the page shows the first. *)
Lemma page_uses_first_matching_row_witness :
  exists fig,
    try_body quiet_world [plain_row "AAA"; row_without_target] "strong_buy" "AAA"
    = Ok (Rendered fig)
    /\ fig_market_cap fig = df_Market_Cap (plain_row "AAA").
Proof.
  eexists. split; [vm_compute; reflexivity|].
  destruct (page_uses_first_matching_row quiet_world
              [plain_row "AAA"; row_without_target] "strong_buy" "AAA" _
              ltac:(vm_compute; reflexivity))
    as [pre [row [post [Hdf [_ [Hpre [_ [_ [_ [Hcap _]]]]]]]]]].
  rewrite Hcap. destruct pre as [|r pre].
  - injection Hdf as <- _. reflexivity.
  - injection Hdf as <- _. exfalso. apply (Hpre (plain_row "AAA")); [now left|].
    reflexivity.
Defined.



(* ===================================================================== *)
(** * Properties of the entry point                                       *)
(* ===================================================================== *)

Section StripFacts.

Local Open Scope string_scope.








End StripFacts.




